(** * bfx-hf-data-server: connection lifecycle and message routing

    A shallow embedding of [lib/server.js] (class [DataServer]) together
    with the part of the ECMAScript JSON codec the server relies on, and
    the properties of the gateway core proved over that embedding.

    Layout: data model and operations first (JSON values and codec, the
    server record, the handlers of [DataServer]), then the theorems. *)

From Stdlib Require Import ZArith NArith Ascii String List Lia.
From Stdlib Require Import DecimalN.
From stdpp Require Import base option list gmap strings.

Set Default Proof Using "Type".
Set Warnings "-register-all".
Local Open Scope N_scope.

(* ===================================================================== *)
(** * Strings                                                              *)
(* ===================================================================== *)

(** A JavaScript string is a sequence of UTF-16 code units. *)
Abbreviation jsstring := (list N).

(** Embedding of an ASCII literal, to write property names and formats. *)
Definition js (s : string) : jsstring :=
  N_of_ascii <$> list_ascii_of_string s.

(* ===================================================================== *)
(** * JSON values and the JSON codec                                       *)
(* ===================================================================== *)

(** The values [JSON.parse] produces.  Numbers are restricted to integers
    ([JNum]); an object is the list of its own properties in enumeration
    order. *)
Inductive json : Type :=
| JNull
| JBool (b : bool)
| JNum (z : Z)
| JStr (s : jsstring)
| JArr (xs : list json)
| JObj (kvs : list (jsstring * json)).

Module JSON.

(** ** Serialisation: [JSON.stringify] with no replacer and no indent *)

Definition is_high (c : N) : bool := (55296 <=? c) && (c <=? 56319).
Definition is_low (c : N) : bool := (56320 <=? c) && (c <=? 57343).

Definition hexdigit (d : N) : N := if d <? 10 then 48 + d else 87 + d.

(** UnicodeEscape: backslash, [u], four lower-case hexadecimal digits. *)
Definition unicode_escape (c : N) : jsstring :=
  [92; 117; hexdigit (c / 4096 mod 16); hexdigit (c / 256 mod 16);
   hexdigit (c / 16 mod 16); hexdigit (c mod 16)].

(** One code unit that is not part of a surrogate pair. *)
Definition escape_unit (c : N) : jsstring :=
  if c =? 8 then [92; 98]
  else if c =? 9 then [92; 116]
  else if c =? 10 then [92; 110]
  else if c =? 12 then [92; 102]
  else if c =? 13 then [92; 114]
  else if c =? 34 then [92; 34]
  else if c =? 92 then [92; 92]
  else if (c <? 32) || is_high c || is_low c then unicode_escape c
  else [c].

(** QuoteJSONString without the surrounding quotes: the string is read
    by code points, so a high surrogate followed by a low one is copied
    and a lone surrogate is escaped. *)
Fixpoint quote_units (s : jsstring) : jsstring :=
  match s with
  | [] => []
  | c :: r =>
      if is_high c then
        match r with
        | d :: r' =>
            if is_low d then c :: d :: quote_units r'
            else unicode_escape c ++ quote_units r
        | [] => unicode_escape c
        end
      else escape_unit c ++ quote_units r
  end.

Definition quote (s : jsstring) : jsstring := 34 :: quote_units s ++ [34].

Fixpoint uint_units (u : Decimal.uint) : jsstring :=
  match u with
  | Decimal.Nil => []
  | Decimal.D0 u => 48 :: uint_units u
  | Decimal.D1 u => 49 :: uint_units u
  | Decimal.D2 u => 50 :: uint_units u
  | Decimal.D3 u => 51 :: uint_units u
  | Decimal.D4 u => 52 :: uint_units u
  | Decimal.D5 u => 53 :: uint_units u
  | Decimal.D6 u => 54 :: uint_units u
  | Decimal.D7 u => 55 :: uint_units u
  | Decimal.D8 u => 56 :: uint_units u
  | Decimal.D9 u => 57 :: uint_units u
  end.

(** Number::toString on an integer below 10^21 in absolute value. *)
Definition number_to_string (z : Z) : jsstring :=
  match z with
  | Z0 => [48]
  | Zpos p => uint_units (N.to_uint (Npos p))
  | Zneg p => 45 :: uint_units (N.to_uint (Npos p))
  end.

Fixpoint join_comma (parts : list jsstring) : jsstring :=
  match parts with
  | [] => []
  | [p] => p
  | p :: ps => p ++ 44 :: join_comma ps
  end.

Fixpoint stringify (v : json) : jsstring :=
  match v with
  | JNull => js "null"
  | JBool true => js "true"
  | JBool false => js "false"
  | JNum z => number_to_string z
  | JStr s => quote s
  | JArr xs => 91 :: join_comma (map stringify xs) ++ [93]
  | JObj kvs =>
      123 :: join_comma (map (fun kv => quote (fst kv) ++ 58 :: stringify (snd kv)) kvs)
          ++ [125]
  end.

(** ** Parsing: [JSON.parse] with no reviver *)

(** [SyntaxError] is the exception [JSON.parse] throws.  [Unsupported]
    marks a text on which this model does not say what [JSON.parse]
    does: a number followed by a fraction or an exponent, negative zero,
    or an integer that a double does not hold exactly.  [OutOfFuel] is
    the end of the recursion fuel, which [parse] never reaches. *)
Inductive perror : Type := SyntaxError | Unsupported | OutOfFuel.

Inductive presult (A : Type) : Type :=
| POk (a : A)
| PErr (e : perror).
Arguments POk {A} a.
Arguments PErr {A} e.

Definition pbind {A B} (m : presult A) (k : A -> presult B) : presult B :=
  match m with
  | POk a => k a
  | PErr e => PErr e
  end.

Definition is_ws (c : N) : bool :=
  (c =? 32) || (c =? 9) || (c =? 10) || (c =? 13).

Fixpoint skip_ws (s : jsstring) : jsstring :=
  match s with
  | c :: r => if is_ws c then skip_ws r else s
  | [] => []
  end.

Fixpoint strip_prefix (p s : jsstring) : option jsstring :=
  match p, s with
  | [], _ => Some s
  | a :: p', b :: s' => if a =? b then strip_prefix p' s' else None
  | _ :: _, [] => None
  end.

Definition hexval (c : N) : option N :=
  if (48 <=? c) && (c <=? 57) then Some (c - 48)
  else if (97 <=? c) && (c <=? 102) then Some (c - 87)
  else if (65 <=? c) && (c <=? 70) then Some (c - 55)
  else None.

Definition hex4 (a b c d : N) : option N :=
  match hexval a, hexval b, hexval c, hexval d with
  | Some x3, Some x2, Some x1, Some x0 =>
      Some (x3 * 4096 + x2 * 256 + x1 * 16 + x0)
  | _, _, _, _ => None
  end.

Definition unescape (e : N) : option N :=
  if e =? 34 then Some 34
  else if e =? 92 then Some 92
  else if e =? 47 then Some 47
  else if e =? 98 then Some 8
  else if e =? 102 then Some 12
  else if e =? 110 then Some 10
  else if e =? 114 then Some 13
  else if e =? 116 then Some 9
  else None.

Definition cons_unit (c : N) (m : presult (jsstring * jsstring))
  : presult (jsstring * jsstring) :=
  pbind m (fun '(s, r) => POk (c :: s, r)).

(** The characters of a string literal, after its opening quote. *)
Fixpoint parse_chars (s : jsstring) : presult (jsstring * jsstring) :=
  match s with
  | [] => PErr SyntaxError
  | c :: r =>
      if c =? 34 then POk ([], r)
      else if c =? 92 then
        match r with
        | [] => PErr SyntaxError
        | e :: r1 =>
            if e =? 117 then
              match r1 with
              | a :: b :: c' :: d :: r2 =>
                  match hex4 a b c' d with
                  | Some u => cons_unit u (parse_chars r2)
                  | None => PErr SyntaxError
                  end
              | _ => PErr SyntaxError
              end
            else
              match unescape e with
              | Some u => cons_unit u (parse_chars r1)
              | None => PErr SyntaxError
              end
        end
      else if c <? 32 then PErr SyntaxError
      else cons_unit c (parse_chars r)
  end.

Definition digit_of (c : N) : option (Decimal.uint -> Decimal.uint) :=
  if c =? 48 then Some Decimal.D0
  else if c =? 49 then Some Decimal.D1
  else if c =? 50 then Some Decimal.D2
  else if c =? 51 then Some Decimal.D3
  else if c =? 52 then Some Decimal.D4
  else if c =? 53 then Some Decimal.D5
  else if c =? 54 then Some Decimal.D6
  else if c =? 55 then Some Decimal.D7
  else if c =? 56 then Some Decimal.D8
  else if c =? 57 then Some Decimal.D9
  else None.

(** The longest prefix of decimal digits. *)
Fixpoint take_uint (s : jsstring) : Decimal.uint * jsstring :=
  match s with
  | [] => (Decimal.Nil, [])
  | c :: r =>
      match digit_of c with
      | Some D => let '(u, r') := take_uint r in (D u, r')
      | None => (Decimal.Nil, s)
      end
  end.

(** No leading zero: [0] alone or a digit string starting with 1-9. *)
Definition canonical_uint (u : Decimal.uint) : bool :=
  Decimal.uint_beq (Decimal.unorm u) u.

Definition max_safe_integer : N := 9007199254740991.

Definition starts_fraction (s : jsstring) : bool :=
  match s with
  | c :: _ => (c =? 46) || (c =? 101) || (c =? 69)
  | [] => false
  end.

Definition strip_minus (s : jsstring) : bool * jsstring :=
  match s with
  | c :: r => if c =? 45 then (true, r) else (false, s)
  | [] => (false, s)
  end.

Definition parse_number (s : jsstring) : presult (Z * jsstring) :=
  let '(neg, s1) := strip_minus s in
  let '(u, s2) := take_uint s1 in
  match u with
  | Decimal.Nil => PErr SyntaxError
  | _ =>
      if negb (canonical_uint u) then PErr SyntaxError
      else if starts_fraction s2 then PErr Unsupported
      else
        let n := N.of_uint u in
        if max_safe_integer <? n then PErr Unsupported
        else if neg then
          (if n =? 0 then PErr Unsupported else POk (Z.opp (Z.of_N n), s2))
        else POk (Z.of_N n, s2)
  end.

(** *** Objects: own properties in enumeration order *)

(** An array index is the canonical decimal form of an integer below
    2^32 - 1. *)
Definition array_index (k : jsstring) : option N :=
  match take_uint k with
  | (Decimal.Nil, _) => None
  | (u, []) =>
      if canonical_uint u && (N.of_uint u <? 4294967295)
      then Some (N.of_uint u) else None
  | (_, _ :: _) => None
  end.

Fixpoint obj_has (k : jsstring) (o : list (jsstring * json)) : bool :=
  match o with
  | [] => false
  | (k', _) :: r => bool_decide (k' = k) || obj_has k r
  end.

Fixpoint obj_replace (k : jsstring) (v : json) (o : list (jsstring * json))
  : list (jsstring * json) :=
  match o with
  | [] => []
  | (k', v') :: r =>
      if bool_decide (k' = k) then (k', v) :: r
      else (k', v') :: obj_replace k v r
  end.

Fixpoint obj_insert_index (n : N) (k : jsstring) (v : json)
         (o : list (jsstring * json)) : list (jsstring * json) :=
  match o with
  | [] => [(k, v)]
  | (k', v') :: r =>
      match array_index k' with
      | Some m => if m <? n then (k', v') :: obj_insert_index n k v r
                  else (k, v) :: o
      | None => (k, v) :: o
      end
  end.

(** CreateDataProperty on an ordinary object: an existing key keeps its
    place, a new array index goes among the indices in ascending order,
    any other new key goes last. *)
Definition obj_set (k : jsstring) (v : json) (o : list (jsstring * json))
  : list (jsstring * json) :=
  if obj_has k o then obj_replace k v o
  else match array_index k with
       | Some n => obj_insert_index n k v o
       | None => o ++ [(k, v)]
       end.

Definition build_object (members : list (jsstring * json))
  : list (jsstring * json) :=
  fold_left (fun o kv => obj_set (fst kv) (snd kv) o) members [].

(** *** Values *)

Fixpoint parse_value (fuel : nat) (s : jsstring) {struct fuel}
  : presult (json * jsstring) :=
  match fuel with
  | O => PErr OutOfFuel
  | S f =>
      match skip_ws s with
      | [] => PErr SyntaxError
      | c :: r =>
          if c =? 91 then
            match skip_ws r with
            | c' :: r' =>
                if c' =? 93 then POk (JArr [], r')
                else pbind (parse_elements f (c' :: r'))
                           (fun '(xs, r'') => POk (JArr xs, r''))
            | [] => PErr SyntaxError
            end
          else if c =? 123 then
            match skip_ws r with
            | c' :: r' =>
                if c' =? 125 then POk (JObj [], r')
                else pbind (parse_members f (c' :: r'))
                           (fun '(kvs, r'') => POk (JObj (build_object kvs), r''))
            | [] => PErr SyntaxError
            end
          else if c =? 34 then
            pbind (parse_chars r) (fun '(str, r') => POk (JStr str, r'))
          else if c =? 116 then
            match strip_prefix (js "true") (c :: r) with
            | Some r' => POk (JBool true, r')
            | None => PErr SyntaxError
            end
          else if c =? 102 then
            match strip_prefix (js "false") (c :: r) with
            | Some r' => POk (JBool false, r')
            | None => PErr SyntaxError
            end
          else if c =? 110 then
            match strip_prefix (js "null") (c :: r) with
            | Some r' => POk (JNull, r')
            | None => PErr SyntaxError
            end
          else pbind (parse_number (c :: r)) (fun '(z, r') => POk (JNum z, r'))
      end
  end

with parse_elements (fuel : nat) (s : jsstring) {struct fuel}
  : presult (list json * jsstring) :=
  match fuel with
  | O => PErr OutOfFuel
  | S f =>
      pbind (parse_value f s) (fun '(x, r) =>
        match skip_ws r with
        | c :: r' =>
            if c =? 44 then
              pbind (parse_elements f r') (fun '(xs, r'') => POk (x :: xs, r''))
            else if c =? 93 then POk ([x], r')
            else PErr SyntaxError
        | [] => PErr SyntaxError
        end)
  end

with parse_members (fuel : nat) (s : jsstring) {struct fuel}
  : presult (list (jsstring * json) * jsstring) :=
  match fuel with
  | O => PErr OutOfFuel
  | S f =>
      match skip_ws s with
      | c :: r =>
          if c =? 34 then
            pbind (parse_chars r) (fun '(k, r1) =>
              match skip_ws r1 with
              | c1 :: r2 =>
                  if c1 =? 58 then
                    pbind (parse_value f r2) (fun '(x, r3) =>
                      match skip_ws r3 with
                      | c3 :: r4 =>
                          if c3 =? 44 then
                            pbind (parse_members f r4)
                                  (fun '(kvs, r5) => POk ((k, x) :: kvs, r5))
                          else if c3 =? 125 then POk ([(k, x)], r4)
                          else PErr SyntaxError
                      | [] => PErr SyntaxError
                      end)
                  else PErr SyntaxError
              | [] => PErr SyntaxError
              end)
          else PErr SyntaxError
      | [] => PErr SyntaxError
      end
  end.

(** [JSON.parse text]: one value, then only white space. *)
Definition parse (s : jsstring) : presult json :=
  pbind (parse_value (2 * length s + 2) s) (fun '(v, r) =>
    match skip_ws r with
    | [] => POk v
    | _ :: _ => PErr SyntaxError
    end).

(** ** Values the codec carries exactly *)

(** Integers are safe integers, and an object lists its properties in
    the order [obj_set] leaves them in. *)
Fixpoint representable (v : json) : Prop :=
  match v with
  | JNull | JBool _ | JStr _ => True
  | JNum z => (Z.abs_N z <= max_safe_integer)%N
  | JArr xs => fold_right (fun x P => representable x /\ P) True xs
  | JObj kvs =>
      build_object kvs = kvs /\
      fold_right (fun kv P => representable (snd kv) /\ P) True kvs
  end.

(** What follows a value inside a text that [stringify] produced: the
    end of the text, a comma, or a closing bracket or brace. *)
Definition delimited (s : jsstring) : bool :=
  match s with
  | [] => true
  | c :: _ => (c =? 44) || (c =? 93) || (c =? 125)
  end.

(** Recursion fuel that [parse_value] needs on [stringify v]. *)
Fixpoint size (v : json) : nat :=
  match v with
  | JArr xs => S (fold_right (fun x n => S (size x + n))%nat O xs)
  | JObj kvs => S (fold_right (fun kv n => S (size (snd kv) + n))%nat O kvs)
  | _ => 1%nat
  end.

End JSON.


(* ===================================================================== *)
(** * Data model of the server                                             *)
(* ===================================================================== *)

(** Client ids are the numbers [nonce()] returns; sockets and upstream
    sessions are objects, referred to by their index in the object store
    of the [World]. *)
Abbreviation ClientID := N.
Abbreviation ws_ref := nat.
Abbreviation proxy_ref := nat.

(** Listeners of a client socket: [this.onWSMessage.bind(this, clientID)]
    and [this.onWSDisconnected.bind(this, clientID)]. *)
Inductive ws_listener : Type :=
| OnWSMessage (clientID : ClientID)
| OnWSDisconnected (clientID : ClientID).

(** A [ws] connection: [readyState] is 0 CONNECTING, 1 OPEN, 2 CLOSING or
    3 CLOSED; [ws_sent] are the frames transmitted, oldest first. *)
Record WebSocket : Type := {
  readyState : N;
  ws_sent : list jsstring;
  ws_listeners : list (string * ws_listener)
}.

(** The listeners [openBFXProxy] installs on a session. *)
Inductive proxy_listener : Type :=
| ProxyRelay (clientID : ClientID)
| ProxyDebug (fmt : string)
| ProxyAuthOnOpen.

Inductive proxy_call : Type := POpen | PAuth | PClose.

Record ProxyParams : Type := {
  url : option jsstring;
  apiKey : option jsstring;
  apiSecret : option jsstring;
  transform : option bool;
  agent : option unit
}.

(** A [WSv2] session: its constructor argument, its listeners (event,
    listener, registered with [once]) in registration order, and the
    methods called on it so far. *)
Record WSv2 : Type := {
  px_params : ProxyParams;
  px_listeners : list (string * proxy_listener * bool);
  px_calls : list proxy_call
}.

Inductive proxy_event : Type :=
| PxMessage (msg : json)
| PxOpen
| PxAuth
| PxClose.

Definition event_name (e : proxy_event) : string :=
  match e with
  | PxMessage _ => "message"
  | PxOpen => "open"
  | PxAuth => "auth"
  | PxClose => "close"
  end.

(** The argument of [new RESTv2(...)]; the server only holds the client. *)
Record RESTv2 : Type := {
  rest_transform : bool;
  rest_url : option jsstring
}.

(** The listening socket, [new WS.Server(...)]. *)
Record WSServer : Type := {
  clientTracking : bool;
  port : option N;
  listening : bool
}.

(** The fields of a [DataServer] instance; [this.wss] is an object of
    the [World] below. *)
Record DataServer : Type := {
  wssClients : gmap ClientID ws_ref;
  bfxProxies : gmap ClientID proxy_ref;
  bfxProxyEnabled : option bool;
  bfxProxyParams : ProxyParams;
  rest : RESTv2
}.

(** The seven command modules and the functions every plain object
    inherits from [Object.prototype]. *)
Inductive command : Type :=
| execBT | getBTs | getMarkets | getCandles | getTrades | submitBT
| proxyBFXMessage.

Inductive object_method : Type :=
| Object_constructor | Object_defineGetter | Object_defineSetter
| Object_hasOwnProperty | Object_lookupGetter | Object_lookupSetter
| Object_isPrototypeOf | Object_propertyIsEnumerable | Object_toString
| Object_valueOf | Object_toLocaleString.

Inductive jsfun : Type :=
| Handler (c : command)
| Builtin (m : object_method).

(** What a property read on [COMMANDS] can give. *)
Inductive property : Type :=
| PFunction (f : jsfun)
| PObject
| PUndefined.

(** Values a handler call returns. *)
Inductive jsval : Type :=
| VUndefined
| VString (s : jsstring)
| VObject.

Inductive exn : Type :=
| TypeError (msg : string)
| OtherError (msg : string).

(** Every primitive step of the server, in the order it happened. *)
Inductive action : Type :=
| ADebug (fmt : string)
| ANonce (clientID : ClientID)
| ASetClient (clientID : ClientID) (ws : ws_ref)
| ADeleteClient (clientID : ClientID)
| ASetProxy (clientID : ClientID) (p : proxy_ref)
| ADeleteProxy (clientID : ClientID)
| AWsOn (ws : ws_ref) (ev : string) (l : ws_listener)
| AWsSend (ws : ws_ref) (frame : jsstring)
| ANewProxy (p : proxy_ref)
| AProxyOn (p : proxy_ref) (ev : string) (l : proxy_listener) (once : bool)
| AProxyCall (p : proxy_ref) (c : proxy_call)
| AInvoke (f : jsfun)
| AWssClose.

(** The server object together with the objects it refers to: the
    listening socket, the client sockets, the upstream sessions, the
    number of [nonce()] calls made, and the trace of primitive steps. *)
Record World : Type := {
  this : DataServer;
  wss : WSServer;
  sockets : list WebSocket;
  proxies : list WSv2;
  nonce_calls : nat;
  trace : list action
}.

#[global] Instance ws_listener_eq_dec : EqDecision ws_listener.
Proof. solve_decision. Defined.
#[global] Instance proxy_listener_eq_dec : EqDecision proxy_listener.
Proof. solve_decision. Defined.
#[global] Instance proxy_call_eq_dec : EqDecision proxy_call.
Proof. solve_decision. Defined.

(** ** Field updates *)

Definition with_wssClients (f : gmap ClientID ws_ref -> gmap ClientID ws_ref)
           (d : DataServer) : DataServer :=
  {| wssClients := f (wssClients d); bfxProxies := bfxProxies d;
     bfxProxyEnabled := bfxProxyEnabled d; bfxProxyParams := bfxProxyParams d;
     rest := rest d |}.

Definition with_bfxProxies (f : gmap ClientID proxy_ref -> gmap ClientID proxy_ref)
           (d : DataServer) : DataServer :=
  {| wssClients := wssClients d; bfxProxies := f (bfxProxies d);
     bfxProxyEnabled := bfxProxyEnabled d; bfxProxyParams := bfxProxyParams d;
     rest := rest d |}.

Definition with_this (f : DataServer -> DataServer) (w : World) : World :=
  {| this := f (this w); wss := wss w;
     sockets := sockets w; proxies := proxies w;
     nonce_calls := nonce_calls w; trace := trace w |}.

Definition wss_listening (w : World) : bool := listening (wss w).

Definition with_listening (b : bool) (w : World) : World :=
  {| this := this w;
     wss := {| clientTracking := clientTracking (wss w); port := port (wss w);
               listening := b |};
     sockets := sockets w; proxies := proxies w;
     nonce_calls := nonce_calls w; trace := trace w |}.

Definition with_sockets (f : list WebSocket -> list WebSocket) (w : World) : World :=
  {| this := this w; wss := wss w;
     sockets := f (sockets w); proxies := proxies w;
     nonce_calls := nonce_calls w; trace := trace w |}.

Definition with_proxies (f : list WSv2 -> list WSv2) (w : World) : World :=
  {| this := this w; wss := wss w;
     sockets := sockets w; proxies := f (proxies w);
     nonce_calls := nonce_calls w; trace := trace w |}.

Definition with_nonce_calls (n : nat) (w : World) : World :=
  {| this := this w; wss := wss w;
     sockets := sockets w; proxies := proxies w;
     nonce_calls := n; trace := trace w |}.

Definition log (a : action) (w : World) : World :=
  {| this := this w; wss := wss w;
     sockets := sockets w; proxies := proxies w;
     nonce_calls := nonce_calls w; trace := trace w ++ [a] |}.

(* ===================================================================== *)
(** * Handlers run in a state and exception monad                          *)
(* ===================================================================== *)

Inductive outcome (A : Type) : Type :=
| Ret (a : A)
| Throw (e : exn).
Arguments Ret {A} a.
Arguments Throw {A} e.

Definition M (A : Type) : Type := World -> outcome A * World.

Definition ret {A} (a : A) : M A := fun w => (Ret a, w).
Definition throw {A} (e : exn) : M A := fun w => (Throw e, w).
Definition bind {A B} (m : M A) (k : A -> M B) : M B :=
  fun w => match m w with
           | (Ret a, w') => k a w'
           | (Throw e, w') => (Throw e, w')
           end.
Definition gets {A} (f : World -> A) : M A := fun w => (Ret (f w), w).
Definition modify (f : World -> World) : M unit := fun w => (Ret tt, f w).

Declare Scope js_scope.
Delimit Scope js_scope with js_m.
Notation "'let*' x ':=' m 'in' k" := (bind m (fun x => k))
  (at level 10, x name, m at level 100, k at level 200) : js_scope.
Notation "m '>>' k" := (bind m (fun _ => k))
  (at level 100, k at level 200, right associativity) : js_scope.
Local Open Scope js_scope.

(** What the server takes from outside [lib/server.js]: the id generator
    ([nonce k] is the value of call number [k] of [nonce()]), the JSON
    built-ins ([JSON_parse] is [None] where [JSON.parse] throws), the
    bodies of the seven command modules, and what [ws.send] does on a
    socket that is not open ([None]: nothing; [Some e]: throws [e]). *)
Class Externals : Type := {
  nonce : nat -> ClientID;
  JSON_parse : jsstring -> option json;
  JSON_stringify : json -> jsstring;
  command_body : command -> option ws_ref -> json -> ClientID -> M jsval;
  send_not_open : option exn
}.

(** ** Primitive steps *)

Definition debug (fmt : string) : M unit := modify (log (ADebug fmt)).

Definition truthy_flag (b : option bool) : bool :=
  match b with Some true => true | _ => false end.

Definition truthy_string (s : option jsstring) : bool :=
  match s with Some (_ :: _) => true | _ => false end.

Definition ws_readyState (ws : ws_ref) : M N :=
  gets (fun w => match sockets w !! ws with
                 | Some o => readyState o
                 | None => 3
                 end).

Definition ws_on (ws : ws_ref) (ev : string) (l : ws_listener) : M unit :=
  modify (fun w =>
    log (AWsOn ws ev l)
        (with_sockets (alter (fun o =>
           {| readyState := readyState o; ws_sent := ws_sent o;
              ws_listeners := ws_listeners o ++ [(ev, l)] |}) ws) w)).

Definition transmit (frame : jsstring) (o : WebSocket) : WebSocket :=
  {| readyState := readyState o; ws_sent := ws_sent o ++ [frame];
     ws_listeners := ws_listeners o |}.

(** [ws.send(frame)] *)
Definition ws_send `{Externals} (ws : ws_ref) (frame : jsstring) : M unit :=
  let* rs := ws_readyState ws in
  modify (log (AWsSend ws frame)) >>
  if rs =? 1 then modify (with_sockets (alter (transmit frame) ws))
  else match send_not_open with
       | Some e => throw e
       | None => ret tt
       end.

Definition proxy_on (p : proxy_ref) (ev : string) (l : proxy_listener)
           (once : bool) : M unit :=
  modify (fun w =>
    log (AProxyOn p ev l once)
        (with_proxies (alter (fun o =>
           {| px_params := px_params o;
              px_listeners := px_listeners o ++ [(ev, l, once)];
              px_calls := px_calls o |}) p) w)).

Fixpoint remove_first {A} `{EqDecision A} (x : A) (l : list A) : list A :=
  match l with
  | [] => []
  | y :: r => if decide (y = x) then r else y :: remove_first x r
  end.

Definition proxy_off (p : proxy_ref) (e : string * proxy_listener * bool)
  : M unit :=
  modify (with_proxies (alter (fun o =>
    {| px_params := px_params o;
       px_listeners := remove_first e (px_listeners o);
       px_calls := px_calls o |}) p)).

(** [proxy.open()], [proxy.auth()], [proxy.close()] *)
Definition proxy_call_method (p : proxy_ref) (c : proxy_call) : M unit :=
  modify (fun w =>
    log (AProxyCall p c)
        (with_proxies (alter (fun o =>
           {| px_params := px_params o; px_listeners := px_listeners o;
              px_calls := px_calls o ++ [c] |}) p) w)).

(** [new WSv2(this.bfxProxyParams)] *)
Definition new_WSv2 : M proxy_ref :=
  fun w =>
    let p := length (proxies w) in
    (Ret p,
     log (ANewProxy p)
         (with_proxies (fun ps => ps ++ [{| px_params := bfxProxyParams (this w);
                                            px_listeners := [];
                                            px_calls := [] |}]) w)).

Definition call_nonce `{Externals} : M ClientID :=
  fun w =>
    let id := nonce (nonce_calls w) in
    (Ret id, log (ANonce id) (with_nonce_calls (S (nonce_calls w)) w)).

Definition set_client (id : ClientID) (ws : ws_ref) : M unit :=
  modify (fun w => log (ASetClient id ws)
                       (with_this (with_wssClients (insert id ws)) w)).

Definition delete_client (id : ClientID) : M unit :=
  modify (fun w => log (ADeleteClient id)
                       (with_this (with_wssClients (delete id)) w)).

Definition set_proxy (id : ClientID) (p : proxy_ref) : M unit :=
  modify (fun w => log (ASetProxy id p)
                       (with_this (with_bfxProxies (insert id p)) w)).

Definition delete_proxy (id : ClientID) : M unit :=
  modify (fun w => log (ADeleteProxy id)
                       (with_this (with_bfxProxies (delete id)) w)).

(** Modelled from the spec: [./wss/send] is not among the sources.  By
    section 6 an outbound frame is the ordered sequence serialised as
    text, so [send(ws, msg)] transmits the encoding of [msg] on [ws]. *)
Definition send `{Externals} (ws : ws_ref) (msg : json) : M unit :=
  ws_send ws (JSON_stringify msg).


(* ===================================================================== *)
(** * Command dispatch table                                               *)
(* ===================================================================== *)

(** The own properties of the object literal [COMMANDS]. *)
Definition COMMANDS : list (string * command) :=
  [ ("exec.bt", execBT);
    ("get.bts", getBTs);
    ("get.markets", getMarkets);
    ("get.candles", getCandles);
    ("get.trades", getTrades);
    ("submit.bt", submitBT);
    ("bfx", proxyBFXMessage) ].

(** The properties of [Object.prototype], the prototype of [COMMANDS].
    [__proto__] is an accessor whose getter gives the prototype itself,
    an object. *)
Definition Object_prototype : list (string * property) :=
  [ ("constructor", PFunction (Builtin Object_constructor));
    ("__defineGetter__", PFunction (Builtin Object_defineGetter));
    ("__defineSetter__", PFunction (Builtin Object_defineSetter));
    ("hasOwnProperty", PFunction (Builtin Object_hasOwnProperty));
    ("__lookupGetter__", PFunction (Builtin Object_lookupGetter));
    ("__lookupSetter__", PFunction (Builtin Object_lookupSetter));
    ("isPrototypeOf", PFunction (Builtin Object_isPrototypeOf));
    ("propertyIsEnumerable", PFunction (Builtin Object_propertyIsEnumerable));
    ("toString", PFunction (Builtin Object_toString));
    ("valueOf", PFunction (Builtin Object_valueOf));
    ("__proto__", PObject);
    ("toLocaleString", PFunction (Builtin Object_toLocaleString)) ].

Fixpoint assoc {A} (k : jsstring) (l : list (string * A)) : option A :=
  match l with
  | [] => None
  | (k', a) :: r => if decide (js k' = k) then Some a else assoc k r
  end.

(** The property read [COMMANDS[key]]: own properties, then the
    prototype chain. *)
Definition COMMANDS_get (key : jsstring) : property :=
  match assoc key COMMANDS with
  | Some c => PFunction (Handler c)
  | None =>
      match assoc key Object_prototype with
      | Some p => p
      | None => PUndefined
      end
  end.

(** [_isFunction] *)
Definition _isFunction (p : property) : bool :=
  match p with
  | PFunction _ => true
  | _ => false
  end.

(** ToString on a value that came out of [JSON.parse]; [None] where the
    conversion throws a [TypeError].  An array is joined with commas, a
    [null] element giving the empty string.  An object converts through
    its [toString] and [valueOf] properties: an own one is a JSON value,
    so not callable, and the inherited [valueOf] returns the object, so
    only an object with no own [toString] converts, through the inherited
    [toString]. *)
Fixpoint to_string (v : json) : option jsstring :=
  match v with
  | JNull => Some (js "null")
  | JBool true => Some (js "true")
  | JBool false => Some (js "false")
  | JNum z => Some (JSON.number_to_string z)
  | JStr s => Some s
  | JArr xs =>
      (fix join (xs : list json) : option jsstring :=
         match xs with
         | [] => Some []
         | x :: r =>
             match (match x with JNull => Some [] | _ => to_string x end) with
             | None => None
             | Some sx =>
                 match r with
                 | [] => Some sx
                 | _ :: _ =>
                     match join r with
                     | Some sr => Some (sx ++ 44 :: sr)
                     | None => None
                     end
                 end
             end
         end) xs
  | JObj kvs =>
      if JSON.obj_has (js "toString") kvs then None
      else Some (js "[object Object]")
  end.

(** ToPropertyKey on the value of [cmd]; [None] stands for [undefined]. *)
Definition to_property_key (cmd : option json) : option jsstring :=
  match cmd with
  | None => Some (js "undefined")
  | Some v => to_string v
  end.

(** A built-in of [Object.prototype] called as a plain function, so with
    [this] undefined, on the arguments [(server, ws, msg, clientID)]:
    [Object(server)] returns the server, [toString] answers for
    [undefined], and every other one fails converting [this] to an
    object. *)
Definition call_builtin (m : object_method) : M jsval :=
  match m with
  | Object_constructor => ret VObject
  | Object_toString => ret (VString (js "[object Undefined]"))
  | _ => throw (TypeError "Cannot convert undefined or null to object")
  end.

Definition invoke `{Externals} (f : jsfun) (ws : option ws_ref) (msg : json)
           (clientID : ClientID) : M jsval :=
  modify (log (AInvoke f)) >>
  match f with
  | Handler c => command_body c ws msg clientID
  | Builtin m => call_builtin m
  end.

(* ===================================================================== *)
(** * The methods of [DataServer]                                          *)
(* ===================================================================== *)

Record Args : Type := {
  arg_apiKey : option jsstring;
  arg_apiSecret : option jsstring;
  arg_agent : option unit;
  arg_restURL : option jsstring;
  arg_wsURL : option jsstring;
  arg_transform : option bool;
  arg_proxy : option bool;
  arg_port : option N
}.

(** [constructor]: the world right after [new DataServer(args)]. *)
Definition constructor (a : Args) : World :=
  {| this := {| wssClients := ∅;
                bfxProxies := ∅;
                bfxProxyEnabled := arg_proxy a;
                bfxProxyParams := {| url := arg_wsURL a;
                                     apiKey := arg_apiKey a;
                                     apiSecret := arg_apiSecret a;
                                     transform := arg_transform a;
                                     agent := arg_agent a |};
                rest := {| rest_transform := true;
                           rest_url := arg_restURL a |} |};
     wss := {| clientTracking := true; port := arg_port a; listening := true |};
     sockets := [];
     proxies := [];
     nonce_calls := O;
     trace := [ADebug "websocket API open on port %d"] |}.

(** [close] *)
Definition close : M unit :=
  modify (fun w => log AWssClose (with_listening false w)).

(** [openBFXProxy] *)
Definition openBFXProxy (clientID : ClientID) : M proxy_ref :=
  let* proxy := new_WSv2 in
  proxy_on proxy "message" (ProxyRelay clientID) false >>
  proxy_on proxy "open" (ProxyDebug "bfx proxy connection opened") false >>
  proxy_on proxy "auth" (ProxyDebug "bfx proxy connection authenticated") false >>
  proxy_on proxy "close" (ProxyDebug "bfx proxy connection closed") false >>
  proxy_on proxy "open" ProxyAuthOnOpen true >>
  proxy_call_method proxy POpen >>
  ret proxy.

(** [onWSConnected] *)
Definition onWSConnected `{Externals} (ws : ws_ref) : M unit :=
  debug "ws client connected" >>
  let* clientID := call_nonce in
  set_client clientID ws >>
  ws_on ws "message" (OnWSMessage clientID) >>
  ws_on ws "close" (OnWSDisconnected clientID) >>
  let* enabled := gets (fun w => bfxProxyEnabled (this w)) in
  (if truthy_flag enabled then
     let* proxy := openBFXProxy clientID in
     set_proxy clientID proxy
   else ret tt) >>
  send ws (JArr [JStr (js "connected")]).

(** [onWSDisconnected] *)
Definition onWSDisconnected (clientID : ClientID) : M unit :=
  debug "ws client %s disconnected" >>
  delete_client clientID >>
  let* proxy := gets (fun w => bfxProxies (this w) !! clientID) in
  match proxy with
  | Some p =>
      proxy_call_method p PClose >>
      delete_proxy clientID
  | None => ret tt
  end.

(** [onWSMessage]; [msgJSON] is [None] when the argument is missing. *)
Definition onWSMessage `{Externals} (clientID : ClientID)
           (msgJSON : option jsstring) : M jsval :=
  let text := default [] msgJSON in
  let* msg := match JSON_parse text with
              | Some v => ret (Some v)
              | None => debug "error reading ws client msg: %s" >> ret None
              end in
  match msg with
  | Some (JArr items) =>
      let cmd := head items in
      match to_property_key cmd with
      | None => throw (TypeError "Cannot convert object to primitive value")
      | Some key =>
          let handler := COMMANDS_get key in
          let* ws := gets (fun w => wssClients (this w) !! clientID) in
          if negb (_isFunction handler) then
            debug "received unknown command: %s" >> ret VUndefined
          else
            match handler with
            | PFunction f => invoke f ws (JArr items) clientID
            | _ => ret VUndefined
            end
      end
  | _ => debug "ws client msg not an array: %j" >> ret VUndefined
  end.

(** The ['message'] listener that [openBFXProxy] gives a session. *)
Definition relay `{Externals} (clientID : ClientID) (msg : json) : M unit :=
  let* ws := gets (fun w => wssClients (this w) !! clientID) in
  match ws with
  | None => throw (TypeError "Cannot read property 'readyState' of undefined")
  | Some h =>
      let* rs := ws_readyState h in
      if negb (rs =? 1) then ret tt
      else
        debug "proxying message %j to client %s" >>
        ws_send h (JSON_stringify (JArr [JStr (js "bfx"); msg]))
  end.

(** The [once('open')] listener. *)
Definition auth_on_open (proxy : proxy_ref) : M unit :=
  let* params := gets (fun w => bfxProxyParams (this w)) in
  if truthy_string (apiKey params) && truthy_string (apiSecret params)
  then proxy_call_method proxy PAuth
  else ret tt.

(* ===================================================================== *)
(** * Event delivery                                                       *)
(* ===================================================================== *)

Definition run_proxy_listener `{Externals} (p : proxy_ref) (l : proxy_listener)
           (e : proxy_event) : M unit :=
  match l with
  | ProxyRelay clientID =>
      relay clientID (match e with PxMessage msg => msg | _ => JNull end)
  | ProxyDebug fmt => debug fmt
  | ProxyAuthOnOpen => auth_on_open p
  end.

(** Listeners run in registration order; one registered with [once] is
    removed just before it runs; an exception ends the delivery. *)
Fixpoint fire_proxy `{Externals} (p : proxy_ref) (e : proxy_event)
         (ls : list (string * proxy_listener * bool)) : M unit :=
  match ls with
  | [] => ret tt
  | l :: r =>
      (if l.2 then proxy_off p l else ret tt) >>
      run_proxy_listener p l.1.2 e >>
      fire_proxy p e r
  end.

(** [proxy.emit(name, ...)], by the upstream library. *)
Definition proxy_emit `{Externals} (p : proxy_ref) (e : proxy_event) : M unit :=
  let* ls := gets (fun w =>
               match proxies w !! p with
               | Some o => filter (fun l => l.1.1 = event_name e) (px_listeners o)
               | None => []
               end) in
  fire_proxy p e ls.

Inductive ws_event : Type :=
| WsMessage (data : option jsstring)
| WsClose.

Definition ws_event_name (e : ws_event) : string :=
  match e with
  | WsMessage _ => "message"
  | WsClose => "close"
  end.

Definition run_ws_listener `{Externals} (l : ws_listener) (e : ws_event)
  : M unit :=
  match l with
  | OnWSMessage clientID =>
      onWSMessage clientID (match e with WsMessage d => d | WsClose => None end)
      >> ret tt
  | OnWSDisconnected clientID => onWSDisconnected clientID
  end.

Fixpoint fire_ws `{Externals} (e : ws_event) (ls : list (string * ws_listener))
  : M unit :=
  match ls with
  | [] => ret tt
  | l :: r => run_ws_listener l.2 e >> fire_ws e r
  end.

(** [ws.emit(name, ...)], by the transport. *)
Definition ws_emit `{Externals} (ws : ws_ref) (e : ws_event) : M unit :=
  let* ls := gets (fun w =>
               match sockets w !! ws with
               | Some o => filter (fun l => l.1 = ws_event_name e) (ws_listeners o)
               | None => []
               end) in
  fire_ws e ls.

(** What the event loop delivers to the server. *)
Inductive event : Type :=
| Connection
| FromClient (ws : ws_ref) (e : ws_event)
| FromUpstream (p : proxy_ref) (e : proxy_event)
| Stop.

(** A new socket as the transport hands it to the ['connection']
    listener: open, nothing sent, no listener. *)
Definition accept : M ws_ref :=
  fun w =>
    (Ret (length (sockets w)),
     with_sockets (fun l => l ++ [{| readyState := 1; ws_sent := [];
                                     ws_listeners := [] |}]) w).

Definition set_readyState (ws : ws_ref) (rs : N) : M unit :=
  modify (with_sockets (alter (fun o =>
    {| readyState := rs; ws_sent := ws_sent o;
       ws_listeners := ws_listeners o |}) ws)).

Definition step `{Externals} (e : event) : M unit :=
  match e with
  | Connection =>
      let* listening := gets wss_listening in
      if listening then
        let* ws := accept in
        onWSConnected ws
      else ret tt
  | FromClient ws (WsMessage d) => ws_emit ws (WsMessage d)
  | FromClient ws WsClose => set_readyState ws 3 >> ws_emit ws WsClose
  | FromUpstream p e => proxy_emit p e
  | Stop => close
  end.

(** The events of a run, in order; an exception that leaves a listener
    is not caught and ends the run. *)
Fixpoint run `{Externals} (es : list event) : M unit :=
  match es with
  | [] => ret tt
  | e :: r => step e >> run r
  end.

(** ** Observations the statements below use *)



(** The session [openBFXProxy clientID] leaves in the store. *)
Definition opened_session (clientID : ClientID) (params : ProxyParams) : WSv2 :=
  {| px_params := params;
     px_listeners :=
       [ ("message", ProxyRelay clientID, false);
         ("open", ProxyDebug "bfx proxy connection opened", false);
         ("auth", ProxyDebug "bfx proxy connection authenticated", false);
         ("close", ProxyDebug "bfx proxy connection closed", false);
         ("open", ProxyAuthOnOpen, true) ];
     px_calls := [POpen] |}.


(** Both credentials are present and not empty. *)
Definition credentials_configured (params : ProxyParams) : Prop :=
  exists key secret,
    apiKey params = Some key /\ apiSecret params = Some secret /\
    key <> [] /\ secret <> [].

Definition is_array (v : json) : bool :=
  match v with
  | JArr _ => true
  | _ => false
  end.


(** ** A reference instance of the externals, to evaluate the model *)

(** [JSON.parse] of the codec above; a text outside its fragment is
    reported like a rejected one, so the instance is to be evaluated on
    texts with integer numbers only. *)
Definition reference_parse (s : jsstring) : option json :=
  match JSON.parse s with
  | JSON.POk v => Some v
  | JSON.PErr _ => None
  end.

Definition reference_externals : Externals :=
  {| nonce := fun k => 1000 * N.of_nat (S k);
     JSON_parse := reference_parse;
     JSON_stringify := JSON.stringify;
     command_body := fun _ _ _ _ => ret VUndefined;
     send_not_open := None |}.


(** The names under which a read of [COMMANDS] gives a function: its
    own seven, and the functions of [Object.prototype]. *)
Definition function_names : list string :=
  COMMANDS.*1 ++
  omap (fun np => if _isFunction np.2 then Some np.1 else None) Object_prototype.

(** The only ['message'] listener of the session is the relay to
    [clientID]. *)
Definition relays_to (o : WSv2) (clientID : ClientID) : Prop :=
  filter (fun l => l.1.1 = "message") (px_listeners o)
  = [("message", ProxyRelay clientID, false)].





(** A socket whose connection has ended: [readyState] is CLOSED, what was
    sent and the listeners stay. *)
Definition closed (o : WebSocket) : WebSocket :=
  {| readyState := 3; ws_sent := ws_sent o; ws_listeners := ws_listeners o |}.

(** A configuration with proxying enabled and credentials, and one with
    proxying enabled and no credentials. *)
Definition example_args : Args :=
  {| arg_apiKey := Some (js "key");
     arg_apiSecret := Some (js "secret");
     arg_agent := None;
     arg_restURL := None;
     arg_wsURL := None;
     arg_transform := None;
     arg_proxy := Some true;
     arg_port := Some 8899 |}.

Definition example_args_no_credentials : Args :=
  {| arg_apiKey := None;
     arg_apiSecret := None;
     arg_agent := None;
     arg_restURL := None;
     arg_wsURL := None;
     arg_transform := None;
     arg_proxy := Some true;
     arg_port := Some 8899 |}.

(** A configuration that leaves [proxy] out. *)
Definition example_args_no_proxy : Args :=
  {| arg_apiKey := Some (js "key");
     arg_apiSecret := Some (js "secret");
     arg_agent := None;
     arg_restURL := None;
     arg_wsURL := None;
     arg_transform := None;
     arg_proxy := None;
     arg_port := Some 8899 |}.

(* ===================================================================== *)
(** * Properties of the JSON codec                                         *)
(* ===================================================================== *)

Module JSONFacts.
Import JSON.

Lemma hexval_hexdigit d : d < 16 -> hexval (hexdigit d) = Some d.
Proof.
  intros Hd. destruct d as [|p]; [reflexivity|].
  do 4 (destruct p as [p|p|]; try reflexivity; try lia).
Qed.

Lemma hex4_unicode_escape c :
  c < 65536 ->
  hex4 (hexdigit (c / 4096 mod 16)) (hexdigit (c / 256 mod 16))
       (hexdigit (c / 16 mod 16)) (hexdigit (c mod 16)) = Some c.
Proof.
  intros Hc. unfold hex4.
  rewrite !hexval_hexdigit by (apply N.mod_lt; lia).
  f_equal. zify. Z.to_euclidean_division_equations. lia.
Qed.

Lemma parse_chars_unicode_escape c t :
  c < 65536 ->
  parse_chars (unicode_escape c ++ t) = cons_unit c (parse_chars t).
Proof.
  intros Hc. unfold unicode_escape. simpl.
  now rewrite hex4_unicode_escape.
Qed.

Lemma parse_chars_raw c t :
  c <> 34 -> c <> 92 -> 32 <= c ->
  parse_chars (c :: t) = cons_unit c (parse_chars t).
Proof.
  intros H1 H2 H3. simpl.
  rewrite (proj2 (N.eqb_neq c 34) H1), (proj2 (N.eqb_neq c 92) H2).
  now rewrite (proj2 (N.ltb_ge c 32) H3).
Qed.

Lemma surrogate_bounds c :
  is_high c || is_low c = true -> 55296 <= c < 65536.
Proof.
  unfold is_high, is_low.
  rewrite orb_true_iff, !andb_true_iff, !N.leb_le. lia.
Qed.

Lemma parse_chars_escape_unit c t :
  parse_chars (escape_unit c ++ t) = cons_unit c (parse_chars t).
Proof.
  unfold escape_unit.
  repeat match goal with
         | |- context [if ?x =? ?k then _ else _] =>
             destruct (N.eqb_spec x k) as [->|]; [reflexivity|]
         end.
  destruct (c <? 32) eqn:Hlt; simpl orb.
  - apply parse_chars_unicode_escape. apply N.ltb_lt in Hlt. lia.
  - apply N.ltb_ge in Hlt.
    destruct (is_high c || is_low c) eqn:Hs.
    + apply parse_chars_unicode_escape. apply surrogate_bounds in Hs. lia.
    + now apply parse_chars_raw.
Qed.

Lemma parse_chars_quote_units s rest :
  parse_chars (quote_units s ++ 34 :: rest) = POk (s, rest).
Proof.
  remember (length s) as n eqn:Hn.
  revert s Hn. induction n as [n IH] using lt_wf_ind. intros s Hn.
  destruct s as [|c r]; [reflexivity|].
  cbn [quote_units]. destruct (is_high c) eqn:Hc.
  - assert (Hb : 55296 <= c < 65536)
      by (apply surrogate_bounds; now rewrite Hc).
    destruct r as [|d r'].
    + rewrite parse_chars_unicode_escape by lia. reflexivity.
    + destruct (is_low d) eqn:Hd.
      * assert (Hb' : 55296 <= d < 65536)
          by (apply surrogate_bounds; rewrite Hd; apply orb_true_r).
        cbn [app]. rewrite (parse_chars_raw c), (parse_chars_raw d) by lia.
        rewrite (IH (length r')) by (subst n; simpl; lia || reflexivity).
        reflexivity.
      * rewrite <- app_assoc, parse_chars_unicode_escape by lia.
        rewrite (IH (length (d :: r'))) by (subst n; simpl; lia || reflexivity).
        reflexivity.
  - rewrite <- app_assoc, parse_chars_escape_unit.
    rewrite (IH (length r)) by (subst n; simpl; lia || reflexivity).
    reflexivity.
Qed.

(** *** Numbers *)

Lemma delimited_no_digit c r :
  delimited (c :: r) = true -> digit_of c = None.
Proof.
  simpl. rewrite !orb_true_iff, !N.eqb_eq. now intros [[->| ->]| ->].
Qed.

Lemma delimited_no_fraction s :
  delimited s = true -> starts_fraction s = false.
Proof.
  destruct s as [|c r]; [reflexivity|]. simpl.
  rewrite !orb_true_iff, !N.eqb_eq. now intros [[->| ->]| ->].
Qed.

Lemma take_uint_units u rest :
  delimited rest = true -> take_uint (uint_units u ++ rest) = (u, rest).
Proof.
  intros Hr. induction u; simpl; try (now rewrite IHu).
  destruct rest as [|c r]; [reflexivity|].
  simpl. now rewrite (delimited_no_digit c r Hr).
Qed.

Lemma uint_units_head u rest :
  u <> Decimal.Nil ->
  exists c t, uint_units u ++ rest = c :: t /\ 48 <= c <= 57.
Proof.
  destruct u; [congruence|..]; intros _; simpl;
    eexists _, _; (split; [reflexivity|lia]).
Qed.

Lemma to_uint_canonical n : canonical_uint (N.to_uint n) = true.
Proof.
  unfold canonical_uint. apply Decimal.internal_uint_dec_lb.
  rewrite <- Unsigned.to_of. now rewrite Unsigned.of_to.
Qed.

Lemma to_uint_pos_nonnil p : N.to_uint (Npos p) <> Decimal.Nil.
Proof. apply DecimalPos.Unsigned.to_uint_nonnil. Qed.

Lemma parse_number_digits (neg : bool) p rest :
  Npos p <= max_safe_integer ->
  delimited rest = true ->
  parse_number ((if neg then [45] else @nil N) ++
                uint_units (N.to_uint (Npos p)) ++ rest)
  = POk (if neg then Zneg p else Zpos p, rest).
Proof.
  intros Hp Hr. unfold parse_number.
  destruct (uint_units_head (N.to_uint (Npos p)) rest (to_uint_pos_nonnil p))
    as (c & t & Hct & Hb).
  assert (Hc : (c =? 45) = false) by (apply N.eqb_neq; lia).
  assert (Hsplit :
    strip_minus ((if neg then [45] else @nil N) ++
                 uint_units (N.to_uint (Npos p)) ++ rest)
    = (neg, uint_units (N.to_uint (Npos p)) ++ rest)).
  { destruct neg; [reflexivity|]. cbn [app]. rewrite Hct.
    unfold strip_minus. now rewrite Hc. }
  rewrite Hsplit.
  rewrite take_uint_units by assumption.
  pose proof (to_uint_pos_nonnil p) as Hnil.
  rewrite to_uint_canonical, delimited_no_fraction by assumption.
  rewrite Unsigned.of_to. simpl negb.
  rewrite (proj2 (N.ltb_ge _ _) Hp).
  destruct (N.to_uint (N.pos p)); [congruence|..]; now destruct neg.
Qed.

Lemma parse_number_to_string z rest :
  Z.abs_N z <= max_safe_integer ->
  delimited rest = true ->
  parse_number (number_to_string z ++ rest) = POk (z, rest).
Proof.
  intros Hz Hr. destruct z as [|p|p].
  - unfold parse_number. simpl.
    destruct rest as [|c r]; [reflexivity|].
    simpl. rewrite (delimited_no_digit c r Hr).
    now rewrite (delimited_no_fraction (c :: r) Hr).
  - apply (parse_number_digits false p rest Hz Hr).
  - apply (parse_number_digits true p rest Hz Hr).
Qed.

(** *** Values *)

Lemma json_ind' (P : json -> Prop) :
  P JNull -> (forall b, P (JBool b)) -> (forall z, P (JNum z)) ->
  (forall s, P (JStr s)) ->
  (forall xs, Forall P xs -> P (JArr xs)) ->
  (forall kvs, Forall (fun kv => P (snd kv)) kvs -> P (JObj kvs)) ->
  forall v, P v.
Proof.
  intros Hnull Hbool Hnum Hstr Harr Hobj. fix IH 1. intros [|b|z|s|xs|kvs].
  - apply Hnull.
  - apply Hbool.
  - apply Hnum.
  - apply Hstr.
  - apply Harr. induction xs as [|x r IHr]; constructor; [apply IH|apply IHr].
  - apply Hobj. induction kvs as [|[k x] r IHr]; constructor; [apply IH|apply IHr].
Qed.

Lemma stringify_str_app s rest :
  stringify (JStr s) ++ rest = 34 :: quote_units s ++ 34 :: rest.
Proof. cbn [stringify]. unfold quote. cbn [app]. now rewrite <- app_assoc. Qed.

Lemma stringify_arr_app xs rest :
  stringify (JArr xs) ++ rest
  = 91 :: join_comma (map stringify xs) ++ 93 :: rest.
Proof. cbn [stringify app]. now rewrite <- app_assoc. Qed.

Lemma stringify_obj_app kvs rest :
  stringify (JObj kvs) ++ rest
  = 123 :: join_comma (map (fun kv => quote (fst kv) ++ 58 :: stringify (snd kv)) kvs)
        ++ 125 :: rest.
Proof. cbn [stringify app]. now rewrite <- app_assoc. Qed.

Lemma number_to_string_head z rest :
  exists c t, number_to_string z ++ rest = c :: t /\ (c = 45 \/ 48 <= c <= 57).
Proof.
  destruct z as [|p|p]; cbn [number_to_string app].
  - eexists _, _. split; [reflexivity|lia].
  - destruct (uint_units_head _ rest (to_uint_pos_nonnil p)) as (c & t & -> & Hc).
    eexists _, _. split; [reflexivity|lia].
  - eexists _, _. split; [reflexivity|lia].
Qed.

(** The first code unit of a serialised value opens a value: it is not
    white space and closes neither an array nor an object. *)
Lemma stringify_head v :
  exists c t, stringify v = c :: t /\
              is_ws c = false /\ (c =? 93) = false /\ (c =? 125) = false.
Proof.
  destruct v as [|[]|z|s|xs|kvs].
  1-3: eexists _, _; split; [reflexivity|now vm_compute].
  - destruct (number_to_string_head z []) as (c & t & Hct & Hc).
    rewrite app_nil_r in Hct.
    exists c, t. split; [exact Hct|].
    unfold is_ws. rewrite !orb_false_iff, !N.eqb_neq. lia.
  - eexists _, _; split; [reflexivity|now vm_compute].
  - eexists _, _; split; [reflexivity|now vm_compute].
  - eexists _, _; split; [reflexivity|now vm_compute].
Qed.

Lemma skip_ws_cons c t : is_ws c = false -> skip_ws (c :: t) = c :: t.
Proof. intros H. cbn [skip_ws]. now rewrite H. Qed.

Lemma parse_value_number_eq f c t :
  c = 45 \/ 48 <= c <= 57 ->
  parse_value (S f) (c :: t)
  = pbind (parse_number (c :: t)) (fun '(z, r') => POk (JNum z, r')).
Proof.
  intros Hc. cbn [parse_value].
  assert (Hws : is_ws c = false)
    by (unfold is_ws; rewrite !orb_false_iff, !N.eqb_neq; lia).
  rewrite skip_ws_cons by assumption.
  repeat match goal with
         | |- context [if c =? ?k then _ else _] =>
             destruct (N.eqb_spec c k); [lia|]
         end.
  reflexivity.
Qed.

Lemma parse_value_array_eq f c t :
  is_ws c = false -> (c =? 93) = false ->
  parse_value (S f) (91 :: c :: t)
  = pbind (parse_elements f (c :: t)) (fun '(xs, r) => POk (JArr xs, r)).
Proof.
  intros Hws Hc. cbn [parse_value].
  rewrite (skip_ws_cons 91), (skip_ws_cons c) by easy.
  change (91 =? 91) with true. cbn iota. now rewrite Hc.
Qed.

Lemma parse_value_object_eq f c t :
  is_ws c = false -> (c =? 125) = false ->
  parse_value (S f) (123 :: c :: t)
  = pbind (parse_members f (c :: t))
          (fun '(kvs, r) => POk (JObj (build_object kvs), r)).
Proof.
  intros Hws Hc. cbn [parse_value].
  rewrite (skip_ws_cons 123), (skip_ws_cons c) by easy.
  change (123 =? 91) with false. change (123 =? 123) with true.
  cbn iota. now rewrite Hc.
Qed.

Lemma parse_elements_join xs :
  Forall (fun x => forall fuel rest,
              (size x <= fuel)%nat -> delimited rest = true ->
              parse_value fuel (stringify x ++ rest) = POk (x, rest)) xs ->
  xs <> [] ->
  forall fuel rest,
    (fold_right (fun x n => S (size x + n)) O xs <= fuel)%nat ->
    parse_elements fuel (join_comma (map stringify xs) ++ 93 :: rest)
    = POk (xs, rest).
Proof.
  induction 1 as [|x r Hx Hr IH]; [congruence|]. intros _ fuel rest Hf.
  cbn [fold_right] in Hf. destruct fuel as [|f]; [lia|].
  cbn [parse_elements]. destruct r as [|y r'].
  - cbn [map join_comma]. rewrite Hx by (reflexivity || (cbn in Hf; lia)).
    cbn [pbind]. now rewrite skip_ws_cons.
  - change (join_comma (map stringify (x :: y :: r')))
      with (stringify x ++ 44 :: join_comma (map stringify (y :: r'))).
    rewrite <- app_assoc. change ((44 :: ?a) ++ ?b) with (44 :: a ++ b).
    rewrite Hx by (reflexivity || lia).
    cbn [pbind]. rewrite skip_ws_cons by reflexivity.
    change (44 =? 44) with true. cbn iota.
    rewrite IH by (congruence || lia). reflexivity.
Qed.

Lemma member_app k x rest :
  (quote k ++ 58 :: stringify x) ++ rest
  = 34 :: quote_units k ++ 34 :: 58 :: stringify x ++ rest.
Proof.
  unfold quote. cbn [app]. rewrite <- !app_assoc. reflexivity.
Qed.

Lemma parse_members_join kvs :
  Forall (fun kv => forall fuel rest,
              (size (snd kv) <= fuel)%nat -> delimited rest = true ->
              parse_value fuel (stringify (snd kv) ++ rest)
              = POk (snd kv, rest)) kvs ->
  kvs <> [] ->
  forall fuel rest,
    (fold_right (fun kv n => S (size (snd kv) + n)) O kvs <= fuel)%nat ->
    parse_members fuel
      (join_comma (map (fun kv => quote (fst kv) ++ 58 :: stringify (snd kv)) kvs)
         ++ 125 :: rest)
    = POk (kvs, rest).
Proof.
  induction 1 as [|[k x] r Hx Hr IH]; [congruence|]. intros _ fuel rest Hf.
  cbn [fold_right snd] in Hf. cbn [snd] in Hx.
  destruct fuel as [|f]; [lia|].
  cbn [parse_members]. destruct r as [|y r'].
  - cbn [map join_comma fst snd]. rewrite member_app.
    rewrite skip_ws_cons by reflexivity.
    change (34 =? 34) with true. cbn iota.
    rewrite parse_chars_quote_units. cbn [pbind].
    rewrite skip_ws_cons by reflexivity.
    change (58 =? 58) with true. cbn iota.
    rewrite Hx by (reflexivity || (cbn in Hf; lia)).
    cbn [pbind]. now rewrite skip_ws_cons.
  - set (member := fun kv : jsstring * json =>
                     quote (fst kv) ++ 58 :: stringify (snd kv)) in *.
    change (join_comma (map member ((k, x) :: y :: r')))
      with ((quote k ++ 58 :: stringify x) ++ 44 :: join_comma (map member (y :: r'))).
    rewrite <- app_assoc. change ((44 :: ?a) ++ ?b) with (44 :: a ++ b).
    rewrite member_app.
    rewrite skip_ws_cons by reflexivity.
    change (34 =? 34) with true. cbn iota.
    rewrite parse_chars_quote_units. cbn [pbind].
    rewrite skip_ws_cons by reflexivity.
    change (58 =? 58) with true. cbn iota.
    rewrite Hx by (reflexivity || lia).
    cbn [pbind]. rewrite skip_ws_cons by reflexivity.
    change (44 =? 44) with true. cbn iota.
    rewrite IH by (congruence || lia). reflexivity.
Qed.

Lemma representable_arr xs :
  representable (JArr xs) -> Forall representable xs.
Proof.
  cbn [representable]. induction xs as [|x r IH]; cbn [fold_right].
  - constructor.
  - intros [Hx Hr]. constructor; auto.
Qed.

Lemma representable_obj kvs :
  representable (JObj kvs) ->
  build_object kvs = kvs /\ Forall (fun kv => representable (snd kv)) kvs.
Proof.
  cbn [representable]. intros [Hb H]. split; [exact Hb|]. clear Hb.
  induction kvs as [|kv r IH]; cbn [fold_right] in *.
  - constructor.
  - destruct H as [Hx Hr]. constructor; auto.
Qed.

(** Parsing what [stringify] wrote gives the value back and leaves what
    follows it, whenever the fuel covers the size of the value. *)
Lemma parse_value_stringify v :
  representable v ->
  forall fuel rest,
    (size v <= fuel)%nat -> delimited rest = true ->
    parse_value fuel (stringify v ++ rest) = POk (v, rest).
Proof.
  induction v as [|b|z|s|xs IH|kvs IH] using json_ind';
    intros Hv fuel rest Hf Hr;
    (destruct fuel as [|f]; [cbn in Hf; lia|]).
  - reflexivity.
  - now destruct b.
  - destruct (number_to_string_head z rest) as (c & t & Hct & Hc).
    cbn [stringify]. rewrite Hct, parse_value_number_eq by assumption.
    rewrite <- Hct, parse_number_to_string by assumption. reflexivity.
  - rewrite stringify_str_app. cbn [parse_value].
    rewrite skip_ws_cons by reflexivity.
    change (34 =? 91) with false. change (34 =? 123) with false.
    change (34 =? 34) with true. cbn iota.
    now rewrite parse_chars_quote_units.
  - rewrite stringify_arr_app. destruct xs as [|x r]; [reflexivity|].
    apply representable_arr in Hv.
    destruct (stringify_head x) as (c & t & Hct & Hws & Hc & _).
    assert (Hhead : exists t', join_comma (map stringify (x :: r)) ++ 93 :: rest
                               = c :: t').
    { destruct r as [|y r']; cbn [map join_comma]; rewrite Hct;
        cbn [app]; eauto. }
    destruct Hhead as [t' Ht'].
    rewrite Ht', parse_value_array_eq, <- Ht' by assumption.
    rewrite parse_elements_join; [reflexivity| |congruence|cbn in Hf; cbn; lia].
    rewrite Forall_forall in IH, Hv. apply Forall_forall. intros y Hy.
    apply IH; [exact Hy|]. apply Hv, Hy.
  - rewrite stringify_obj_app. destruct kvs as [|[k x] r]; [reflexivity|].
    apply representable_obj in Hv. destruct Hv as [Hb Hv].
    assert (Hhead : exists t',
               join_comma (map (fun kv => quote (fst kv) ++ 58 :: stringify (snd kv))
                               ((k, x) :: r)) ++ 125 :: rest = 34 :: t').
    { destruct r as [|y r']; cbn [map join_comma fst snd]; unfold quote;
        cbn [app]; eauto. }
    destruct Hhead as [t' Ht'].
    rewrite Ht', parse_value_object_eq, <- Ht' by reflexivity.
    rewrite parse_members_join; [cbn [pbind]; now rewrite Hb| |congruence|cbn in Hf; cbn; lia].
    rewrite Forall_forall in IH, Hv. apply Forall_forall. intros y Hy.
    apply IH; [exact Hy|]. apply Hv, Hy.
Qed.

Lemma fuel_join {A} (f : A -> nat) (g : A -> jsstring) (xs : list A) :
  Forall (fun x => (f x <= length (g x))%nat) xs ->
  (fold_right (fun x n => S (f x + n)) O xs
   <= S (length (join_comma (map g xs))))%nat.
Proof.
  induction 1 as [|x r Hx Hr IH]; [cbn; lia|].
  destruct r as [|y r'].
  - cbn. lia.
  - change (join_comma (map g (x :: y :: r')))
      with (g x ++ 44 :: join_comma (map g (y :: r'))).
    rewrite length_app. cbn [length fold_right] in *. lia.
Qed.

Lemma size_le_length v : (size v <= length (stringify v))%nat.
Proof.
  induction v as [|b|z|s|xs IH|kvs IH] using json_ind'.
  - cbn. lia.
  - destruct b; cbn; lia.
  - destruct (number_to_string_head z []) as (c & t & Hct & _).
    rewrite app_nil_r in Hct. cbn [size stringify]. rewrite Hct. cbn. lia.
  - cbn [size stringify]. unfold quote. cbn [length]. lia.
  - cbn [size stringify length]. rewrite length_app. cbn [length].
    pose proof (fuel_join size stringify xs IH). lia.
  - cbn [size stringify length]. rewrite length_app. cbn [length].
    pose proof (fuel_join (fun kv => size (snd kv))
                  (fun kv => quote (fst kv) ++ 58 :: stringify (snd kv)) kvs) as H.
    cbn beta in H. apply Nat.le_trans with (m := S (S (length
      (join_comma (map (fun kv => quote (fst kv) ++ 58 :: stringify (snd kv)) kvs)))));
      [|lia].
    apply le_n_S, H. eapply Forall_impl; [exact IH|].
    intros kv Hkv. cbn beta in *. rewrite length_app. cbn [length]. lia.
Qed.

(** [JSON.parse (JSON.stringify v)] is [v] on representable values. *)
Lemma parse_stringify v :
  representable v -> parse (stringify v) = POk v.
Proof.
  intros Hv. unfold parse.
  pose proof (size_le_length v) as Hs.
  pose proof (parse_value_stringify v Hv
                (2 * length (stringify v) + 2) [] ltac:(lia) eq_refl) as H.
  rewrite app_nil_r in H. now rewrite H.
Qed.

(** *** Termination of the parser *)

Lemma skip_ws_length s : (length (skip_ws s) <= length s)%nat.
Proof. induction s as [|c r IH]; cbn; [lia|]. destruct (is_ws c); cbn; lia. Qed.

Lemma strip_prefix_length p s r :
  strip_prefix p s = Some r -> (length r + length p = length s)%nat.
Proof.
  revert s. induction p as [|a p IH]; intros s H; cbn in *.
  - simplify_eq. lia.
  - destruct s as [|b s]; [discriminate|].
    destruct (a =? b); [|discriminate]. apply IH in H. cbn. lia.
Qed.

Lemma parse_chars_length s x r :
  parse_chars s = POk (x, r) -> (length r < length s)%nat.
Proof.
  remember (length s) as n eqn:Hn. revert s x r Hn.
  induction n as [n IH] using lt_wf_ind. intros s x r Hn H.
  destruct s as [|c s]; [discriminate|]. cbn [parse_chars] in H.
  unfold cons_unit, pbind in H.
  repeat case_match; simplify_eq; cbn [length] in *; try lia.
  all: match goal with
       | Hp : parse_chars ?t = POk (_, ?r) |- _ =>
           eapply (IH (length t)) in Hp; [|cbn; lia|reflexivity]
       end; cbn [length] in *; lia.
Qed.

Lemma take_uint_length s u r :
  take_uint s = (u, r) ->
  (length r <= length s)%nat /\ (u <> Decimal.Nil -> (length r < length s)%nat).
Proof.
  revert u r. induction s as [|c s IH]; intros u r H; cbn in H.
  - simplify_eq. split; [cbn; lia|congruence].
  - destruct (digit_of c) as [D|].
    + destruct (take_uint s) as [u' r'] eqn:Hs. simplify_eq.
      destruct (IH _ _ eq_refl) as [Hle _]. cbn. split; lia.
    + simplify_eq. split; [lia|congruence].
Qed.

Lemma parse_number_length s z r :
  parse_number s = POk (z, r) -> (length r < length s)%nat.
Proof.
  unfold parse_number. destruct (strip_minus s) as [neg s1] eqn:Hm.
  destruct (take_uint s1) as [u s2] eqn:Hu. intros H.
  assert (Hs1 : (length s1 <= length s)%nat).
  { unfold strip_minus in Hm. repeat case_match; simplify_eq; cbn; lia. }
  destruct (take_uint_length _ _ _ Hu) as [_ Hlt].
  destruct u; [discriminate|..];
    (repeat case_match; simplify_eq;
     match goal with |- (length ?r < _)%nat => assert (length r < length s1)%nat by (apply Hlt; discriminate); lia end).
Qed.

Ltac lens IHv IHe IHm :=
  repeat match goal with
    | H : skip_ws ?s = ?t |- _ =>
        let L := fresh "L" in
        pose proof (skip_ws_length s) as L; rewrite H in L; clear H
    | H : parse_chars _ = POk _ |- _ => apply parse_chars_length in H
    | H : parse_number _ = POk _ |- _ => apply parse_number_length in H
    | H : strip_prefix _ _ = Some _ |- _ => apply strip_prefix_length in H
    | H : parse_value _ _ = POk _ |- _ => apply IHv in H
    | H : parse_elements _ _ = POk _ |- _ => apply IHe in H
    | H : parse_members _ _ = POk _ |- _ => apply IHm in H
    end;
  cbn [length] in *.

Lemma parse_progress fuel :
  (forall s v r, parse_value fuel s = POk (v, r) -> (length r < length s)%nat) /\
  (forall s xs r, parse_elements fuel s = POk (xs, r) -> (length r < length s)%nat) /\
  (forall s kvs r, parse_members fuel s = POk (kvs, r) -> (length r < length s)%nat).
Proof.
  induction fuel as [|f (IHv & IHe & IHm)]; [repeat split; discriminate|].
  split; [|split]; intros s x r H;
    cbn [parse_value parse_elements parse_members] in H; unfold pbind in H;
    repeat case_match; simplify_eq; lens IHv IHe IHm;
    change (length (js "true")) with 4%nat in *;
    change (length (js "false")) with 5%nat in *;
    change (length (js "null")) with 4%nat in *; lia.
Qed.

Lemma parse_chars_fuel s : parse_chars s <> PErr OutOfFuel.
Proof.
  remember (length s) as n eqn:Hn. revert s Hn.
  induction n as [n IH] using lt_wf_ind. intros s Hn H.
  destruct s as [|c s]; [discriminate|]. cbn [parse_chars] in H.
  unfold cons_unit, pbind in H.
  repeat case_match; simplify_eq.
  all: match goal with
       | Hp : parse_chars ?t = PErr OutOfFuel |- _ =>
           eapply (IH (length t)); [|reflexivity|exact Hp]; cbn; lia
       end.
Qed.

Lemma parse_number_fuel s : parse_number s <> PErr OutOfFuel.
Proof.
  unfold parse_number. intros H. repeat case_match; simplify_eq.
Qed.

Lemma parse_fuel fuel :
  (forall s, (2 * length s + 1 <= fuel)%nat -> parse_value fuel s <> PErr OutOfFuel) /\
  (forall s, (2 * length s + 2 <= fuel)%nat -> parse_elements fuel s <> PErr OutOfFuel) /\
  (forall s, (2 * length s + 2 <= fuel)%nat -> parse_members fuel s <> PErr OutOfFuel).
Proof.
  induction fuel as [|f (IHv & IHe & IHm)]; [repeat split; intros; lia|].
  destruct (parse_progress f) as (Pv & Pe & Pm).
  split; [|split]; intros s Hf H;
    cbn [parse_value parse_elements parse_members] in H; unfold pbind in H;
    repeat case_match; simplify_eq;
    try (exfalso; eapply parse_chars_fuel; eassumption);
    try (exfalso; eapply parse_number_fuel; eassumption).
  all: lens Pv Pe Pm.
  all: match goal with
       | Hp : parse_value _ ?t = PErr OutOfFuel |- _ => apply (IHv t); [|exact Hp]
       | Hp : parse_elements _ ?t = PErr OutOfFuel |- _ => apply (IHe t); [|exact Hp]
       | Hp : parse_members _ ?t = PErr OutOfFuel |- _ => apply (IHm t); [|exact Hp]
       end; cbn [length] in *; lia.
Qed.

(** [parse] gives its recursion enough fuel on every text. *)
Lemma parse_never_out_of_fuel s : parse s <> PErr OutOfFuel.
Proof.
  unfold parse, pbind. intros H.
  destruct (parse_value (2 * length s + 2) s) as [[v r]|e] eqn:Hp.
  - destruct (skip_ws r); discriminate.
  - simplify_eq. destruct (parse_fuel (2 * length s + 2)) as (Hv & _).
    apply (Hv s); [lia|exact Hp].
Qed.



End JSONFacts.

(* ===================================================================== *)
(** * Properties of the server                                             *)
(* ===================================================================== *)

(** Evaluation of monadic code on a world given by its fields. *)
Ltac run_m :=
  cbn [step run bind gets modify ret throw accept onWSConnected
       onWSDisconnected debug call_nonce set_client delete_client set_proxy
       delete_proxy ws_on proxy_on proxy_off proxy_call_method new_WSv2
       openBFXProxy send ws_send ws_readyState close set_readyState
       this with_this log with_sockets with_proxies with_wssClients
       with_bfxProxies with_listening with_nonce_calls
       sockets bfxProxyEnabled nonce_calls wss_listening wss listening
       clientTracking port rest proxies trace
       bfxProxies wssClients bfxProxyParams truthy_flag
       px_params px_listeners px_calls readyState ws_sent ws_listeners
       transmit].

Ltac norm_world :=
  cbv beta iota zeta delta
      [modify log with_this with_sockets with_proxies with_wssClients
       with_bfxProxies with_listening with_nonce_calls this wss_listening
       wss listening clientTracking port rest
       sockets proxies nonce_calls trace wssClients bfxProxies
       bfxProxyEnabled bfxProxyParams].

Lemma alter_snoc {A} (f : A -> A) (l : list A) (x : A) :
  alter f (length l) (l ++ [x]) = l ++ [f x].
Proof. induction l; simpl; [reflexivity|]. f_equal. assumption. Qed.

Lemma lookup_snoc {A} (l : list A) (x : A) : (l ++ [x]) !! length l = Some x.
Proof. induction l; simpl; [reflexivity|assumption]. Qed.

Section Server.
Context {E : Externals}.

(** ** The monad *)

Lemma bind_modify {B} f (k : unit -> M B) w :
  bind (modify f) k w = k tt (f w).
Proof. reflexivity. Qed.

Lemma bind_gets {A B} (f : World -> A) (k : A -> M B) w :
  bind (gets f) k w = k (f w) w.
Proof. reflexivity. Qed.

Lemma bind_ret {A B} (a : A) (k : A -> M B) w : bind (ret a) k w = k a w.
Proof. reflexivity. Qed.

Lemma bind_bind {A B C} (m : M A) (k : A -> M B) (k' : B -> M C) w :
  bind (bind m k) k' w = bind m (fun a => bind (k a) k') w.
Proof. unfold bind. destruct (m w) as [[a|e] w']; reflexivity. Qed.

Lemma ws_send_open ws frame o w :
  sockets w !! ws = Some o -> readyState o = 1 ->
  ws_send ws frame w
  = (Ret tt,
     with_sockets (alter (transmit frame) ws) (log (AWsSend ws frame) w)).
Proof.
  intros Ho Hrs. unfold ws_send, bind, ws_readyState, gets.
  now rewrite Ho, Hrs.
Qed.

(** ** Accepting a connection *)

Lemma openBFXProxy_eq clientID w :
  let proxy := length (proxies w) in
  openBFXProxy clientID w
  = (Ret proxy,
     {| this := this w;
        wss := wss w;
        sockets := sockets w;
        proxies := proxies w ++
                   [opened_session clientID (bfxProxyParams (this w))];
        nonce_calls := nonce_calls w;
        trace := trace w ++
                 [ANewProxy proxy;
                  AProxyOn proxy "message" (ProxyRelay clientID) false;
                  AProxyOn proxy "open"
                    (ProxyDebug "bfx proxy connection opened") false;
                  AProxyOn proxy "auth"
                    (ProxyDebug "bfx proxy connection authenticated") false;
                  AProxyOn proxy "close"
                    (ProxyDebug "bfx proxy connection closed") false;
                  AProxyOn proxy "open" ProxyAuthOnOpen true;
                  AProxyCall proxy POpen] |}).
Proof.
  destruct w as [d li so pr nc tr]. run_m. norm_world.
  rewrite !alter_snoc. run_m. now rewrite <- !app_assoc.
Qed.


Lemma step_connection_eq w :
  wss_listening w = true ->
  let clientID := nonce (nonce_calls w) in
  let ws := length (sockets w) in
  let proxy := length (proxies w) in
  let on := truthy_flag (bfxProxyEnabled (this w)) in
  let frame := JSON_stringify (JArr [JStr (js "connected")]) in
  step Connection w
  = (Ret tt,
     {| this :=
          {| wssClients := <[clientID := ws]> (wssClients (this w));
             bfxProxies := if on then <[clientID := proxy]> (bfxProxies (this w))
                           else bfxProxies (this w);
             bfxProxyEnabled := bfxProxyEnabled (this w);
             bfxProxyParams := bfxProxyParams (this w);
             rest := rest (this w) |};
        wss := wss w;
        sockets := sockets w ++
                   [{| readyState := 1;
                       ws_sent := [frame];
                       ws_listeners := [("message", OnWSMessage clientID);
                                        ("close", OnWSDisconnected clientID)] |}];
        proxies := if on
                   then proxies w ++
                        [opened_session clientID (bfxProxyParams (this w))]
                   else proxies w;
        nonce_calls := S (nonce_calls w);
        trace := trace w ++
                 [ADebug "ws client connected"; ANonce clientID;
                  ASetClient clientID ws;
                  AWsOn ws "message" (OnWSMessage clientID);
                  AWsOn ws "close" (OnWSDisconnected clientID)] ++
                 (if on
                  then [ANewProxy proxy;
                        AProxyOn proxy "message" (ProxyRelay clientID) false;
                        AProxyOn proxy "open"
                          (ProxyDebug "bfx proxy connection opened") false;
                        AProxyOn proxy "auth"
                          (ProxyDebug "bfx proxy connection authenticated") false;
                        AProxyOn proxy "close"
                          (ProxyDebug "bfx proxy connection closed") false;
                        AProxyOn proxy "open" ProxyAuthOnOpen true;
                        AProxyCall proxy POpen;
                        ASetProxy clientID proxy]
                  else []) ++
                 [AWsSend ws frame] |}).
Proof.
  destruct w as [[cl px en pa re] [ct po li] so pr nc tr].
  cbn [wss_listening wss listening]. intros ->.
  cbn [step]. rewrite bind_gets. cbn [wss_listening wss listening].
  unfold accept at 1. unfold bind at 1. norm_world.
  unfold onWSConnected. unfold debug, call_nonce, set_client, ws_on.
  rewrite bind_modify. unfold bind at 1. rewrite !bind_modify, bind_gets.
  norm_world. rewrite !alter_snoc. cbn [readyState ws_sent ws_listeners app].
  unfold send.
  destruct (truthy_flag en).
  - rewrite bind_bind. unfold bind at 1. rewrite openBFXProxy_eq. cbv zeta.
    unfold set_proxy. rewrite bind_modify. norm_world.
    erewrite ws_send_open; [|apply lookup_snoc|reflexivity].
    norm_world. rewrite alter_snoc.
    cbn [transmit readyState ws_sent ws_listeners app].
    rewrite <- !app_assoc. reflexivity.
  - rewrite bind_ret.
    erewrite ws_send_open; [|apply lookup_snoc|reflexivity].
    norm_world. rewrite alter_snoc.
    cbn [transmit readyState ws_sent ws_listeners app].
    rewrite <- !app_assoc. reflexivity.
Qed.



(** ** Registries along connect and disconnect events *)


Lemma onWSDisconnected_eq clientID w :
  onWSDisconnected clientID w
  = (Ret tt,
     match bfxProxies (this w) !! clientID with
     | Some p =>
         log (ADeleteProxy clientID)
           (with_this (with_bfxProxies (delete clientID))
              (log (AProxyCall p PClose)
                 (with_proxies (alter (fun o =>
                    {| px_params := px_params o;
                       px_listeners := px_listeners o;
                       px_calls := px_calls o ++ [PClose] |}) p)
                    (log (ADeleteClient clientID)
                       (with_this (with_wssClients (delete clientID))
                          (log (ADebug "ws client %s disconnected") w))))))
     | None =>
         log (ADeleteClient clientID)
           (with_this (with_wssClients (delete clientID))
              (log (ADebug "ws client %s disconnected") w))
     end).
Proof.
  unfold onWSDisconnected, bind, debug, delete_client, gets, modify. cbn.
  destruct (bfxProxies (this w) !! clientID); reflexivity.
Qed.




Lemma fire_ws_disconnected e ev id ls w :
  fire_ws e ((ev, OnWSDisconnected id) :: ls) w
  = fire_ws e ls (onWSDisconnected id w).2.
Proof.
  cbn [fire_ws run_ws_listener snd]. unfold bind at 1.
  now rewrite onWSDisconnected_eq.
Qed.



Lemma step_ws_close_eq h w :
  step (FromClient h WsClose) w
  = fire_ws WsClose
      (match alter (fun o => {| readyState := 3; ws_sent := ws_sent o;
                                ws_listeners := ws_listeners o |}) h (sockets w)
             !! h with
       | Some o => filter (fun l => l.1 = "close") (ws_listeners o)
       | None => []
       end)
      (with_sockets
         (alter (fun o => {| readyState := 3; ws_sent := ws_sent o;
                             ws_listeners := ws_listeners o |}) h) w).
Proof. reflexivity. Qed.




(** C3.  [onWSDisconnected] never throws and performs, in this order:
    the removal of the id from the Client Registry, then, only when the
    Proxy Registry has a session for the id, [close()] on that session
    and the removal of the id from the Proxy Registry.  Without a
    session it stops after the first removal. *)
Theorem disconnect_unregisters_then_closes clientID w :
  let '(r, w') := onWSDisconnected clientID w in
  r = Ret tt /\
  wssClients (this w') = delete clientID (wssClients (this w)) /\
  bfxProxies (this w') = delete clientID (bfxProxies (this w)) /\
  match bfxProxies (this w) !! clientID with
  | Some p =>
      trace w' = trace w ++ [ADebug "ws client %s disconnected";
                             ADeleteClient clientID;
                             AProxyCall p PClose;
                             ADeleteProxy clientID] /\
      proxies w' = alter (fun o =>
                     {| px_params := px_params o;
                        px_listeners := px_listeners o;
                        px_calls := px_calls o ++ [PClose] |}) p (proxies w)
  | None =>
      trace w' = trace w ++ [ADebug "ws client %s disconnected";
                             ADeleteClient clientID] /\
      proxies w' = proxies w
  end.
Proof.
  rewrite onWSDisconnected_eq.
  destruct (bfxProxies (this w) !! clientID) as [p|] eqn:Hp; run_m.
  - repeat split. now rewrite <- !app_assoc.
  - repeat split; [|now rewrite <- !app_assoc].
    symmetry. now apply delete_id.
Qed.

(** C4.  Accepting a connection never throws.  The handler takes its
    id from a new call of [nonce()], different from every id returned
    before when [nonce()] does not repeat itself; it registers the new
    socket under that id; with proxying enabled it opens one session
    for that id and registers it, and with proxying disabled it
    touches neither the Proxy Registry nor the sessions; the new
    socket has the two listeners bound to the id and has been sent
    exactly one frame, the encoding of the sequence holding only the
    tag [connected]; no other socket changes. *)
Theorem accept_registers_and_greets w :
  wss_listening w = true ->
  Inj (=) (=) nonce ->
  let clientID := nonce (nonce_calls w) in
  let ws := length (sockets w) in
  let proxy := length (proxies w) in
  let '(r, w') := step Connection w in
  r = Ret tt /\
  (forall k, (k < nonce_calls w)%nat -> nonce k <> clientID) /\
  nonce_calls w' = S (nonce_calls w) /\
  wssClients (this w') = <[clientID := ws]> (wssClients (this w)) /\
  (if truthy_flag (bfxProxyEnabled (this w))
   then bfxProxies (this w') = <[clientID := proxy]> (bfxProxies (this w)) /\
        proxies w' = proxies w ++
                     [opened_session clientID (bfxProxyParams (this w))]
   else bfxProxies (this w') = bfxProxies (this w) /\
        proxies w' = proxies w) /\
  sockets w' = sockets w ++
               [{| readyState := 1;
                   ws_sent := [JSON_stringify (JArr [JStr (js "connected")])];
                   ws_listeners := [("message", OnWSMessage clientID);
                                    ("close", OnWSDisconnected clientID)] |}].
Proof.
  intros Hl Hinj. rewrite step_connection_eq by exact Hl. cbn.
  split; [reflexivity|]. split.
  { intros k Hk Heq. apply Hinj in Heq. lia. }
  repeat split. now destruct (truthy_flag (bfxProxyEnabled (this w))).
Qed.


(** ** Inbound frames *)

Lemma onWSMessage_parse_error clientID msgJSON w :
  JSON_parse (default [] msgJSON) = None ->
  onWSMessage clientID msgJSON w
  = (Ret VUndefined,
     log (ADebug "ws client msg not an array: %j")
         (log (ADebug "error reading ws client msg: %s") w)).
Proof. intros H. unfold onWSMessage. now rewrite H. Qed.

Lemma onWSMessage_not_array clientID msgJSON v w :
  JSON_parse (default [] msgJSON) = Some v -> is_array v = false ->
  onWSMessage clientID msgJSON w
  = (Ret VUndefined, log (ADebug "ws client msg not an array: %j") w).
Proof. intros H Hv. unfold onWSMessage. rewrite H. now destruct v. Qed.

Lemma onWSMessage_array clientID msgJSON items key w :
  JSON_parse (default [] msgJSON) = Some (JArr items) ->
  to_property_key (head items) = Some key ->
  onWSMessage clientID msgJSON w
  = match COMMANDS_get key with
    | PFunction f =>
        invoke f (wssClients (this w) !! clientID) (JArr items) clientID w
    | _ => (Ret VUndefined, log (ADebug "received unknown command: %s") w)
    end.
Proof.
  intros H Hk. unfold onWSMessage. rewrite H. cbn [bind ret].
  rewrite Hk. now destruct (COMMANDS_get key).
Qed.

Lemma onWSMessage_key_throws clientID msgJSON items w :
  JSON_parse (default [] msgJSON) = Some (JArr items) ->
  to_property_key (head items) = None ->
  onWSMessage clientID msgJSON w
  = (Throw (TypeError "Cannot convert object to primitive value"), w).
Proof. intros H Hk. unfold onWSMessage. rewrite H. cbn [bind ret]. now rewrite Hk. Qed.

(** A first element whose key resolves to no function, neither own nor
    inherited, takes the unknown-command branch: one log line, nothing
    else. *)
Lemma unknown_command_only_logs clientID msgJSON items key w :
  JSON_parse (default [] msgJSON) = Some (JArr items) ->
  to_property_key (head items) = Some key ->
  _isFunction (COMMANDS_get key) = false ->
  onWSMessage clientID msgJSON w
  = (Ret VUndefined, log (ADebug "received unknown command: %s") w).
Proof.
  intros H Hk Hf. rewrite (onWSMessage_array _ _ _ _ _ H Hk).
  now destruct (COMMANDS_get key).
Qed.

(** C6.  A frame that [JSON.parse] rejects, or that parses to something
    other than an array, only adds debug lines to the trace: the
    handler returns normally, the server object with both registries,
    every socket (its state and the frames sent on it) and every
    session are as before. *)
Theorem undecodable_frame_dropped clientID msgJSON w :
  (JSON_parse (default [] msgJSON) = None \/
   exists v, JSON_parse (default [] msgJSON) = Some v /\ is_array v = false) ->
  let '(r, w') := onWSMessage clientID msgJSON w in
  r = Ret VUndefined /\
  this w' = this w /\
  sockets w' = sockets w /\
  proxies w' = proxies w /\
  wss w' = wss w /\
  nonce_calls w' = nonce_calls w /\
  trace w' = trace w ++
             (match JSON_parse (default [] msgJSON) with
              | None => [ADebug "error reading ws client msg: %s"]
              | Some _ => []
              end) ++
             [ADebug "ws client msg not an array: %j"].
Proof.
  intros [H|(v & H & Hv)].
  - rewrite (onWSMessage_parse_error _ _ _ H), H. cbn.
    repeat split. now rewrite <- app_assoc.
  - rewrite (onWSMessage_not_array _ _ _ _ H Hv), H. cbn. repeat split.
Qed.

(** C10.  The handler is read as a property of a plain object.  For a
    frame whose first element is the string [toString], which is not
    one of the seven names of [COMMANDS], the read gives the function
    inherited from [Object.prototype], and that function is called:
    the unknown-command line is not logged.  For a frame whose first
    element is the array holding the string [bfx], the key is the
    string [bfx] and the body of [proxyBFXMessage] runs on the frame. *)
Theorem inherited_and_coerced_keys_dispatch clientID msgJSON rest w :
  (JSON_parse (default [] msgJSON) = Some (JArr (JStr (js "toString") :: rest)) ->
   assoc (js "toString") COMMANDS = None /\
   COMMANDS_get (js "toString") = PFunction (Builtin Object_toString) /\
   onWSMessage clientID msgJSON w
   = (Ret (VString (js "[object Undefined]")),
      log (AInvoke (Builtin Object_toString)) w)) /\
  (JSON_parse (default [] msgJSON)
   = Some (JArr (JArr [JStr (js "bfx")] :: rest)) ->
   to_property_key (Some (JArr [JStr (js "bfx")])) = Some (js "bfx") /\
   COMMANDS_get (js "bfx") = PFunction (Handler proxyBFXMessage) /\
   onWSMessage clientID msgJSON w
   = invoke (Handler proxyBFXMessage) (wssClients (this w) !! clientID)
            (JArr (JArr [JStr (js "bfx")] :: rest)) clientID w).
Proof.
  split; intros H.
  - split; [reflexivity|]. split; [reflexivity|].
    now rewrite (onWSMessage_array _ _ _ (js "toString") _ H eq_refl).
  - split; [reflexivity|]. split; [reflexivity|].
    now rewrite (onWSMessage_array _ _ _ (js "bfx") _ H eq_refl).
Qed.

(** ** Upstream events *)

Lemma relay_absent_throws clientID msg w :
  wssClients (this w) !! clientID = None ->
  relay clientID msg w
  = (Throw (TypeError "Cannot read property 'readyState' of undefined"), w).
Proof. intros H. unfold relay, bind, gets. now rewrite H. Qed.

(** A registered client whose socket is not open: the event is dropped
    and nothing changes. *)
Lemma relay_not_open_drops clientID msg ws o w :
  wssClients (this w) !! clientID = Some ws ->
  sockets w !! ws = Some o -> readyState o <> 1 ->
  relay clientID msg w = (Ret tt, w).
Proof.
  intros H Ho Hrs. unfold relay, bind, gets, ws_readyState. rewrite H.
  unfold gets. rewrite Ho.
  now rewrite (proj2 (N.eqb_neq _ _) Hrs).
Qed.

Lemma relay_open_sends clientID msg ws o w :
  wssClients (this w) !! clientID = Some ws ->
  sockets w !! ws = Some o -> readyState o = 1 ->
  relay clientID msg w
  = (Ret tt,
     with_sockets
       (alter (transmit (JSON_stringify (JArr [JStr (js "bfx"); msg]))) ws)
       (log (AWsSend ws (JSON_stringify (JArr [JStr (js "bfx"); msg])))
            (log (ADebug "proxying message %j to client %s") w))).
Proof.
  intros H Ho Hrs. unfold relay, bind, gets, ws_readyState. rewrite H.
  unfold gets. rewrite Ho, Hrs. cbn [negb N.eqb Pos.eqb].
  unfold debug, ws_send, bind, modify, ws_readyState, gets. run_m.
  now rewrite Ho, Hrs.
Qed.

Lemma credentials_truthy params :
  credentials_configured params
  <-> truthy_string (apiKey params) && truthy_string (apiSecret params) = true.
Proof.
  unfold credentials_configured. split.
  - intros (k & s' & -> & -> & Hk & Hs). now destruct k, s'.
  - destruct (apiKey params) as [[|c k]|], (apiSecret params) as [[|c' s']|];
      try discriminate.
    intros _. now eexists _, _.
Qed.

Lemma open_listeners clientID params :
  filter (fun l => l.1.1 = "open")
         (px_listeners (opened_session clientID params))
  = [ ("open", ProxyDebug "bfx proxy connection opened", false);
      ("open", ProxyAuthOnOpen, true) ].
Proof. reflexivity. Qed.

Lemma once_removed clientID params :
  remove_first ("open", ProxyAuthOnOpen, true)
               (px_listeners (opened_session clientID params))
  = [ ("message", ProxyRelay clientID, false);
      ("open", ProxyDebug "bfx proxy connection opened", false);
      ("auth", ProxyDebug "bfx proxy connection authenticated", false);
      ("close", ProxyDebug "bfx proxy connection closed", false) ].
Proof. reflexivity. Qed.

Lemma alter_known {A} (f : A -> A) (l : list A) i x :
  l !! i = Some x -> alter f i l = <[i := f x]> l.
Proof.
  intros H. apply list_eq. intros j. destruct (decide (i = j)) as [<-|Hne].
  - rewrite list_lookup_alter_eq, H, list_lookup_insert_eq; [reflexivity|].
    eapply lookup_lt_Some, H.
  - now rewrite list_lookup_alter_ne, list_lookup_insert_ne.
Qed.

Lemma bind_ret_tt (m : M unit) w : bind m (fun _ => ret tt) w = m w.
Proof. unfold bind, ret. now destruct (m w) as [[[]|e] w']. Qed.

(** The ['open'] event on a session as [openBFXProxy] left it: the
    debug listener runs, the [once] listener is removed and runs. *)
Lemma proxy_emit_open_eq p clientID params w :
  proxies w !! p = Some (opened_session clientID params) ->
  let on := truthy_string (apiKey (bfxProxyParams (this w)))
            && truthy_string (apiSecret (bfxProxyParams (this w))) in
  proxy_emit p PxOpen w
  = (Ret tt,
     {| this := this w;
        wss := wss w;
        sockets := sockets w;
        proxies :=
          <[p := {| px_params := params;
                    px_listeners :=
                      [ ("message", ProxyRelay clientID, false);
                        ("open", ProxyDebug "bfx proxy connection opened", false);
                        ("auth", ProxyDebug "bfx proxy connection authenticated",
                         false);
                        ("close", ProxyDebug "bfx proxy connection closed", false) ];
                    px_calls := POpen :: (if on then [PAuth] else []) |}]>
            (proxies w);
        nonce_calls := nonce_calls w;
        trace := trace w ++
                 ADebug "bfx proxy connection opened"
                 :: (if on then [AProxyCall p PAuth] else []) |}).
Proof.
  intros Hp. destruct w as [d li so pr nc tr]. cbn [proxies this] in Hp |- *.
  unfold proxy_emit. rewrite bind_gets. cbn [proxies]. rewrite Hp.
  cbn [event_name]. rewrite open_listeners.
  cbn [fire_proxy snd fst run_proxy_listener].
  rewrite bind_ret. unfold debug. rewrite bind_modify. unfold proxy_off.
  rewrite bind_modify. unfold auth_on_open. rewrite bind_bind, bind_gets.
  norm_world. rewrite (alter_known _ _ _ _ Hp).
  cbn [px_calls px_params opened_session]. rewrite once_removed.
  assert (Hlt : (p < length pr)%nat) by (eapply lookup_lt_Some, Hp).
  destruct (truthy_string _ && truthy_string _).
  - unfold proxy_call_method. rewrite bind_modify. norm_world.
    erewrite alter_known by (now apply list_lookup_insert_eq).
    rewrite list_insert_insert_eq. cbn [px_params px_listeners px_calls app].
    now rewrite <- app_assoc.
  - now rewrite bind_ret.
Qed.

(** A ['message'] event on a session whose only ['message'] listener
    is the relay runs the relay. *)
Lemma proxy_emit_message_eq p o clientID msg w :
  proxies w !! p = Some o ->
  filter (fun l => l.1.1 = "message") (px_listeners o)
  = [("message", ProxyRelay clientID, false)] ->
  proxy_emit p (PxMessage msg) w = relay clientID msg w.
Proof.
  intros Hp Hf. unfold proxy_emit. rewrite bind_gets, Hp. cbn [event_name].
  rewrite Hf. cbn [fire_proxy snd fst run_proxy_listener].
  rewrite bind_ret. apply bind_ret_tt.
Qed.

(** C7.  For the session [openBFXProxy] creates, whatever the
    credentials: the session is created and opened; on its ['open']
    event [auth()] is called, once, exactly when both credentials are
    configured, and not at all otherwise; and afterwards a ['message']
    event for a registered client whose socket is open sends that
    client the frame encoding the tag [bfx] and the message. *)
Theorem open_event_authenticates_iff_credentials clientID w :
  let params := bfxProxyParams (this w) in
  let proxy := length (proxies w) in
  let '(r0, w0) := openBFXProxy clientID w in
  let '(r1, w1) := proxy_emit proxy PxOpen w0 in
  r0 = Ret proxy /\ r1 = Ret tt /\
  proxies w0 = proxies w ++ [opened_session clientID params] /\
  (exists o,
      proxies w1 !! proxy = Some o /\
      (credentials_configured params <-> PAuth ∈ px_calls o) /\
      (credentials_configured params -> px_calls o = [POpen; PAuth]) /\
      (~ credentials_configured params -> px_calls o = [POpen])) /\
  this w1 = this w /\ sockets w1 = sockets w /\
  forall msg ws o,
    wssClients (this w) !! clientID = Some ws ->
    sockets w !! ws = Some o -> readyState o = 1 ->
    let '(r2, w2) := proxy_emit proxy (PxMessage msg) w1 in
    r2 = Ret tt /\
    sockets w2
    = alter (transmit (JSON_stringify (JArr [JStr (js "bfx"); msg]))) ws
            (sockets w).
Proof.
  cbv zeta. rewrite openBFXProxy_eq. cbv zeta.
  erewrite proxy_emit_open_eq by (cbn [proxies]; apply lookup_snoc).
  cbv zeta. cbn [this proxies sockets].
  split; [reflexivity|]. split; [reflexivity|]. split; [reflexivity|].
  pose proof (credentials_truthy (bfxProxyParams (this w))) as Hcred.
  split; [|split; [reflexivity|split; [reflexivity|]]].
  - eexists. split.
    { apply list_lookup_insert_eq. rewrite length_app. cbn. lia. }
    cbn [px_calls].
    destruct (truthy_string _ && truthy_string _); split.
    + split; [intros _|intros _; now apply Hcred].
      apply elem_of_cons. right. apply elem_of_cons. now left.
    + split; [reflexivity|]. intros Hn. exfalso. now apply Hn, Hcred.
    + split; [intros Hc; apply Hcred in Hc; discriminate|].
      intros Hin. apply elem_of_cons in Hin as [Hin|Hin]; [discriminate|].
      now apply elem_of_nil in Hin.
    + split; [|reflexivity]. intros Hc. apply Hcred in Hc. discriminate.
  - intros msg ws o Hws Ho Hrs.
    erewrite proxy_emit_message_eq;
      [|cbn [proxies]; apply list_lookup_insert_eq; rewrite length_app; cbn; lia
       |reflexivity].
    erewrite relay_open_sends; [|exact Hws|exact Ho|exact Hrs].
    split; reflexivity.
Qed.

End Server.

(* ===================================================================== *)
(** * The model evaluated                                                  *)
(* ===================================================================== *)

(** C1.  A client connects with proxying enabled, its socket closes, and
    the upstream session, which [close()] has not yet brought down, emits
    one more ['message']: the listener reads [readyState] of [undefined]
    and the [TypeError] leaves the listener. *)
Theorem upstream_message_after_disconnect_throws :
  (@run reference_externals
        [Connection; FromClient 0%nat WsClose;
         FromUpstream 0%nat (PxMessage (JArr [JNum 1]))]
        (constructor example_args)).1
  = Throw (TypeError "Cannot read property 'readyState' of undefined").
Proof. vm_compute. reflexivity. Qed.

(** C5.  A client sends the frame whose first element is the string
    [hasOwnProperty], which is not a name of [COMMANDS]: the function
    inherited from [Object.prototype] is called with [this] undefined and
    its [TypeError] leaves [onWSMessage]; the unknown-command line is not
    logged. *)
Theorem inherited_method_frame_throws :
  assoc (js "hasOwnProperty") COMMANDS = None /\
  let '(r, w) :=
    @run reference_externals
         [Connection;
          FromClient 0%nat
            (WsMessage (Some (JSON.stringify (JArr [JStr (js "hasOwnProperty")]))))]
         (constructor example_args) in
  r = Throw (TypeError "Cannot convert undefined or null to object") /\
  last (trace w) = Some (AInvoke (Builtin Object_hasOwnProperty)) /\
  ADebug "received unknown command: %s" ∉ trace w.
Proof.
  split; [reflexivity|]. vm_compute.
  split; [reflexivity|]. split; [reflexivity|].
  intros H. repeat (apply elem_of_cons in H as [H|H]; [discriminate|]).
  now apply elem_of_nil in H.
Qed.

(** ** Instances of the theorems above *)


Lemma accept_registers_and_greets_witness :
  wss_listening (constructor example_args) = true /\
  Inj (=) (=) (@nonce reference_externals) /\
  let '(r, w') := @step reference_externals Connection
                        (constructor example_args) in
  r = Ret tt /\
  wssClients (this w') = <[1000 := 0%nat]> ∅ /\
  bfxProxies (this w') = <[1000 := 0%nat]> ∅ /\
  sockets w' = [{| readyState := 1;
                   ws_sent := [JSON.stringify (JArr [JStr (js "connected")])];
                   ws_listeners := [("message", OnWSMessage 1000);
                                    ("close", OnWSDisconnected 1000)] |}].
Proof.
  assert (Hinj : Inj (=) (=) (@nonce reference_externals))
    by (intros x y H; cbn in H; lia).
  split; [reflexivity|]. split; [exact Hinj|].
  pose proof (@accept_registers_and_greets reference_externals
                (constructor example_args) eq_refl Hinj) as H.
  cbv zeta in H.
  destruct (@step reference_externals Connection (constructor example_args))
    as [r w'].
  destruct H as (Hr & _ & _ & Hcl & Hpx & Hso). cbn in Hpx.
  destruct Hpx as [Hpx _]. repeat split; assumption.
Defined.

Lemma undecodable_frame_dropped_witness :
  (@JSON_parse reference_externals (default [] (Some (js "{oops"))) = None \/
   exists v, @JSON_parse reference_externals (default [] (Some (js "{oops")))
             = Some v /\ is_array v = false) /\
  let '(r, w') := @onWSMessage reference_externals 1000 (Some (js "{oops"))
                               (constructor example_args) in
  r = Ret VUndefined /\
  this w' = this (constructor example_args) /\
  sockets w' = sockets (constructor example_args) /\
  proxies w' = proxies (constructor example_args).
Proof.
  assert (Hp : @JSON_parse reference_externals (default [] (Some (js "{oops")))
               = None) by (vm_compute; reflexivity).
  split; [now left|].
  pose proof (@undecodable_frame_dropped reference_externals 1000
                (Some (js "{oops")) (constructor example_args) (or_introl Hp))
    as H.
  destruct (@onWSMessage reference_externals 1000 (Some (js "{oops"))
                         (constructor example_args)) as [r w'].
  destruct H as (Hr & Hthis & Hso & Hpr & _). repeat split; assumption.
Defined.

Lemma inherited_and_coerced_keys_dispatch_witness :
  @JSON_parse reference_externals
     (default [] (Some (JSON.stringify (JArr [JStr (js "toString")]))))
  = Some (JArr [JStr (js "toString")]) /\
  @onWSMessage reference_externals 1000
     (Some (JSON.stringify (JArr [JStr (js "toString")])))
     (constructor example_args)
  = (Ret (VString (js "[object Undefined]")),
     log (AInvoke (Builtin Object_toString)) (constructor example_args)) /\
  @JSON_parse reference_externals
     (default [] (Some (JSON.stringify (JArr [JArr [JStr (js "bfx")]]))))
  = Some (JArr [JArr [JStr (js "bfx")]]) /\
  @onWSMessage reference_externals 1000
     (Some (JSON.stringify (JArr [JArr [JStr (js "bfx")]])))
     (constructor example_args)
  = @invoke reference_externals (Handler proxyBFXMessage) None
            (JArr [JArr [JStr (js "bfx")]]) 1000 (constructor example_args).
Proof.
  assert (H1 : @JSON_parse reference_externals
                 (default [] (Some (JSON.stringify (JArr [JStr (js "toString")]))))
               = Some (JArr [JStr (js "toString")]))
    by (vm_compute; reflexivity).
  assert (H2 : @JSON_parse reference_externals
                 (default [] (Some (JSON.stringify (JArr [JArr [JStr (js "bfx")]]))))
               = Some (JArr [JArr [JStr (js "bfx")]]))
    by (vm_compute; reflexivity).
  destruct (@inherited_and_coerced_keys_dispatch reference_externals 1000
              (Some (JSON.stringify (JArr [JStr (js "toString")]))) []
              (constructor example_args)) as [Ha _].
  destruct (@inherited_and_coerced_keys_dispatch reference_externals 1000
              (Some (JSON.stringify (JArr [JArr [JStr (js "bfx")]]))) []
              (constructor example_args)) as [_ Hb].
  destruct (Ha H1) as (_ & _ & Ea). destruct (Hb H2) as (_ & _ & Eb).
  split; [exact H1|]. split; [exact Ea|]. split; [exact H2|]. exact Eb.
Defined.

Lemma open_event_authenticates_iff_credentials_witness :
  let w := (@step reference_externals Connection (constructor example_args)).2 in
  credentials_configured (bfxProxyParams (this w)) /\
  wssClients (this w) !! 1000 = Some 0%nat /\
  let '(r0, w0) := openBFXProxy 1000 w in
  let '(r1, w1) := @proxy_emit reference_externals 1%nat PxOpen w0 in
  let '(r2, w2) := @proxy_emit reference_externals 1%nat
                               (PxMessage (JArr [JNum 7])) w1 in
  (px_calls <$> proxies w1 !! 1%nat) = Some [POpen; PAuth] /\
  r2 = Ret tt /\
  (ws_sent <$> sockets w2 !! 0%nat)
  = Some [JSON.stringify (JArr [JStr (js "connected")]);
          JSON.stringify (JArr [JStr (js "bfx"); JArr [JNum 7]])].
Proof.
  cbv zeta.
  set (w := (@step reference_externals Connection (constructor example_args)).2).
  assert (Hc : credentials_configured (bfxProxyParams (this w))).
  { exists (js "key"), (js "secret"). repeat split; discriminate. }
  assert (Hw : wssClients (this w) !! 1000 = Some 0%nat)
    by (vm_compute; reflexivity).
  split; [exact Hc|]. split; [exact Hw|].
  pose proof (@open_event_authenticates_iff_credentials reference_externals
                1000 w) as H.
  cbv zeta in H.
  destruct (openBFXProxy 1000 w) as [r0 w0].
  destruct (@proxy_emit reference_externals 1%nat PxOpen w0) as [r1 w1] eqn:E1.
  change (length (proxies w)) with 1%nat in H. rewrite E1 in H.
  destruct H as (_ & _ & _ & (o & Ho & _ & Hauth & _) & _ & _ & Hmsg).
  specialize (Hmsg (JArr [JNum 7]) 0%nat
                {| readyState := 1;
                   ws_sent := [JSON.stringify (JArr [JStr (js "connected")])];
                   ws_listeners := [("message", OnWSMessage 1000);
                                    ("close", OnWSDisconnected 1000)] |}
                Hw eq_refl eq_refl).
  destruct (@proxy_emit reference_externals 1%nat (PxMessage (JArr [JNum 7])) w1)
    as [r2 w2].
  destruct Hmsg as [Hr2 Hs2].
  split; [now rewrite Ho, <- (Hauth Hc)|]. split; [exact Hr2|].
  now rewrite Hs2.
Defined.

(* ===================================================================== *)
(** * Further properties of the server                                     *)
(* ===================================================================== *)

(** ** The keys of [COMMANDS] that give a function *)

Lemma assoc_Some {A} key (l : list (string * A)) a :
  assoc key l = Some a -> exists name, (name, a) ∈ l /\ js name = key.
Proof.
  induction l as [|[k x] l IH]; [discriminate|]. cbn [assoc].
  destruct (decide (js k = key)) as [Hk|Hk].
  - intros [= ->]. exists k. split; [left|exact Hk].
  - intros H. destruct (IH H) as (name & Hin & Hn). exists name. split; [now right|exact Hn].
Qed.

Lemma assoc_None {A} key (l : list (string * A)) :
  assoc key l = None <-> key ∉ js <$> l.*1.
Proof.
  induction l as [|[k x] l IH]; cbn [assoc fmap list_fmap fst].
  - split; [intros _ H; now apply elem_of_nil in H|reflexivity].
  - destruct (decide (js k = key)) as [Hk|Hk].
    + split; [discriminate|]. intros H. exfalso. apply H. rewrite Hk. left.
    + rewrite IH. split.
      * intros H Hin. apply elem_of_cons in Hin as [Hin|Hin]; [congruence|now apply H].
      * intros H Hin. apply H. now right.
Qed.

Lemma function_names_eq :
  function_names
  = ["exec.bt"; "get.bts"; "get.markets"; "get.candles"; "get.trades";
     "submit.bt"; "bfx"; "constructor"; "__defineGetter__"; "__defineSetter__";
     "hasOwnProperty"; "__lookupGetter__"; "__lookupSetter__"; "isPrototypeOf";
     "propertyIsEnumerable"; "toString"; "valueOf"; "toLocaleString"].
Proof. reflexivity. Qed.

Lemma COMMANDS_get_function key :
  _isFunction (COMMANDS_get key) = true <-> key ∈ js <$> function_names.
Proof.
  unfold function_names. rewrite fmap_app, elem_of_app. unfold COMMANDS_get.
  destruct (assoc key COMMANDS) as [c|] eqn:Hc.
  - split; [intros _|reflexivity]. left.
    destruct (assoc_Some _ _ _ Hc) as (name & Hin & <-).
    apply list_elem_of_fmap_2, list_elem_of_fmap. exists (name, c). now split.
  - apply assoc_None in Hc.
    destruct (assoc key Object_prototype) as [p|] eqn:Hp.
    + destruct (assoc_Some _ _ _ Hp) as (name & Hin & <-). split.
      * intros Hf. right. apply list_elem_of_fmap_2, list_elem_of_omap.
        exists (name, p). split; [exact Hin|]. cbn. now rewrite Hf.
      * intros [H|H]; [contradiction|].
        clear Hc Hp.
        repeat (apply elem_of_cons in Hin as [Hin|Hin];
                [simplify_eq; try reflexivity|]).
        -- exfalso. vm_compute in H.
           repeat (apply elem_of_cons in H as [H|H]; [discriminate|]).
           now apply elem_of_nil in H.
        -- now apply elem_of_nil in Hin.
    + split; [discriminate|]. intros [H|H]; [contradiction|].
      apply assoc_None in Hp. exfalso. apply Hp.
      apply list_elem_of_fmap in H as (n & -> & H). apply list_elem_of_fmap_2.
      apply list_elem_of_omap in H as ([n' p] & Hin & Hs). cbn in Hs.
      destruct (_isFunction p); [|discriminate]. injection Hs as ->.
      apply list_elem_of_fmap. exists (n, p). now split.
Qed.

Lemma names_start_with_letter c t :
  c :: t ∈ js <$> function_names -> 65 <= c.
Proof.
  intros H. rewrite function_names_eq in H.
  let l := eval vm_compute in
     (js <$> ["exec.bt"; "get.bts"; "get.markets"; "get.candles"; "get.trades";
     "submit.bt"; "bfx"; "constructor"; "__defineGetter__"; "__defineSetter__";
     "hasOwnProperty"; "__lookupGetter__"; "__lookupSetter__"; "isPrototypeOf";
     "propertyIsEnumerable"; "toString"; "valueOf"; "toLocaleString"]) in
  change (c :: t ∈ l) in H.
  repeat (apply elem_of_cons in H as [H|H]; [injection H as -> _; lia|]).
  now apply elem_of_nil in H.
Qed.

Section Behaviour.
Context {E : Externals}.

(** ** Dispatch of inbound frames *)

Lemma COMMANDS_own name c :
  (name, c) ∈ COMMANDS -> COMMANDS_get (js name) = PFunction (Handler c).
Proof.
  intros H.
  repeat (apply elem_of_cons in H as [H|H]; [simplify_eq; reflexivity|]).
  now apply elem_of_nil in H.
Qed.

(** X1.  A frame that [JSON.parse] reads as an array whose first element
    is the string of one of the seven names of [COMMANDS] is handed to
    the handler under that name, with the server, the socket registered
    for the client (or [undefined]), the whole array and the client id;
    what the handler returns or throws is what [onWSMessage] returns or
    throws. *)
Theorem registered_command_runs_its_handler clientID msgJSON name c rest w :
  (name, c) ∈ COMMANDS ->
  JSON_parse (default [] msgJSON) = Some (JArr (JStr (js name) :: rest)) ->
  onWSMessage clientID msgJSON w
  = command_body c (wssClients (this w) !! clientID)
                 (JArr (JStr (js name) :: rest)) clientID
                 (log (AInvoke (Handler c)) w).
Proof.
  intros Hc Hp.
  rewrite (onWSMessage_array _ _ _ (js name) _ Hp eq_refl).
  now rewrite (COMMANDS_own _ _ Hc).
Qed.

(** X2.  Whether a frame reaches a function is decided by the property
    key of its first element alone: a key among [function_names] (the
    seven commands and the functions of [Object.prototype]) is invoked,
    any other key gives the unknown-command line and a normal return,
    with nothing else changed. *)
Theorem dispatch_decided_by_key clientID msgJSON items key w :
  JSON_parse (default [] msgJSON) = Some (JArr items) ->
  to_property_key (head items) = Some key ->
  (key ∈ js <$> function_names ->
   exists f, COMMANDS_get key = PFunction f /\
             onWSMessage clientID msgJSON w
             = invoke f (wssClients (this w) !! clientID) (JArr items) clientID w) /\
  (key ∉ js <$> function_names ->
   onWSMessage clientID msgJSON w
   = (Ret VUndefined, log (ADebug "received unknown command: %s") w)).
Proof.
  intros Hp Hk. rewrite (onWSMessage_array _ _ _ _ _ Hp Hk).
  pose proof (COMMANDS_get_function key) as Hf. split; intros Hin.
  - apply Hf in Hin. destruct (COMMANDS_get key) as [f| |]; try discriminate.
    now exists f.
  - destruct (COMMANDS_get key) as [f| |]; try reflexivity.
    exfalso. now apply Hin, Hf.
Qed.

(** X3.  An array that is empty or starts with [null], a boolean or a
    number is an unknown command: the key is [undefined], [null], [true],
    [false] or a decimal numeral, none of which names a function. *)
Theorem non_string_first_element_is_unknown clientID msgJSON items w :
  JSON_parse (default [] msgJSON) = Some (JArr items) ->
  match head items with
  | None | Some JNull | Some (JBool _) | Some (JNum _) => True
  | _ => False
  end ->
  onWSMessage clientID msgJSON w
  = (Ret VUndefined, log (ADebug "received unknown command: %s") w).
Proof.
  intros Hp Hh.
  assert (Hkey : exists key, to_property_key (head items) = Some key /\
                             key ∉ js <$> function_names).
  { destruct (head items) as [[|[]|z|s|xs|kvs]|]; try contradiction; cbn.
    1-3,5: eexists; (split; [reflexivity|]); intros H; vm_compute in H;
      repeat (apply elem_of_cons in H as [H|H]; [discriminate|]);
      now apply elem_of_nil in H.
    destruct (JSONFacts.number_to_string_head z []) as (c & t & Hct & Hc).
    rewrite app_nil_r in Hct. eexists; split; [reflexivity|]. rewrite Hct.
    intros H; apply names_start_with_letter in H; lia. }
  destruct Hkey as (key & Hk & Hn).
  rewrite (onWSMessage_array _ _ _ _ _ Hp Hk).
  destruct (COMMANDS_get key) as [f| |] eqn:Hf; try reflexivity.
  exfalso. apply Hn, COMMANDS_get_function. now rewrite Hf.
Qed.

(** X4.  An array that starts with an object: if the object has an own
    property [toString] (whose JSON value is never callable) the
    conversion to a property key throws a [TypeError] out of
    [onWSMessage] and nothing is logged; otherwise the key is
    [[object Object]] and the frame is an unknown command. *)
Theorem object_first_element clientID msgJSON kvs rest w :
  JSON_parse (default [] msgJSON) = Some (JArr (JObj kvs :: rest)) ->
  onWSMessage clientID msgJSON w
  = if JSON.obj_has (js "toString") kvs
    then (Throw (TypeError "Cannot convert object to primitive value"), w)
    else (Ret VUndefined, log (ADebug "received unknown command: %s") w).
Proof.
  intros Hp. destruct (JSON.obj_has (js "toString") kvs) eqn:Hh.
  - apply (onWSMessage_key_throws _ _ _ _ Hp).
    cbn [head to_property_key to_string]. now rewrite Hh.
  - rewrite (onWSMessage_array _ _ _ (js "[object Object]") _ Hp);
      [reflexivity|]. cbn [head to_property_key to_string]. now rewrite Hh.
Qed.

(** ** Upstream events *)

(** X5.  An upstream message for a client that is registered with a
    socket that is not open is dropped: the listener returns, nothing is
    sent, nothing is logged, the world is the same. *)
Theorem upstream_message_to_closed_socket_is_dropped p o clientID ws s msg w :
  proxies w !! p = Some o -> relays_to o clientID ->
  wssClients (this w) !! clientID = Some ws ->
  sockets w !! ws = Some s -> readyState s <> 1 ->
  proxy_emit p (PxMessage msg) w = (Ret tt, w).
Proof.
  intros Hp Hr Hws Hs Hrs.
  rewrite (proxy_emit_message_eq _ _ _ _ _ Hp Hr).
  exact (relay_not_open_drops _ _ _ _ _ Hws Hs Hrs).
Qed.

Lemma run_cons e es w :
  run (e :: es) w
  = match step e w with
    | (Ret _, w') => run es w'
    | (Throw x, w') => (Throw x, w')
    end.
Proof. cbn [run]. unfold bind. now destruct (step e w) as [[[]|x] w']. Qed.

(** X6.  Upstream messages for a client with an open socket are relayed
    in the order they arrive: after the run, the socket's outbound
    frames are the earlier ones followed by one [["bfx", msg]] text per
    message, in order; registries and sessions are unchanged. *)
Theorem upstream_messages_are_relayed_in_order p o clientID ws msgs :
  forall s w,
  proxies w !! p = Some o -> relays_to o clientID ->
  wssClients (this w) !! clientID = Some ws ->
  sockets w !! ws = Some s -> readyState s = 1 ->
  let '(r, w') := run (map (fun m => FromUpstream p (PxMessage m)) msgs) w in
  r = Ret tt /\
  this w' = this w /\
  proxies w' = proxies w /\
  sockets w'
  = <[ws := {| readyState := 1;
               ws_sent := ws_sent s ++
                          map (fun m => JSON_stringify (JArr [JStr (js "bfx"); m]))
                              msgs;
               ws_listeners := ws_listeners s |}]> (sockets w).
Proof.
  induction msgs as [|m msgs IH]; intros s w Hp Hr Hws Hs Hrs.
  - cbn. repeat split. rewrite app_nil_r. symmetry.
    rewrite <- Hrs. destruct s. now apply list_insert_id.
  - cbn [map]. rewrite run_cons. cbn [step].
    rewrite (proxy_emit_message_eq _ _ _ _ _ Hp Hr).
    rewrite (relay_open_sends _ _ _ _ _ Hws Hs Hrs).
    set (f := JSON_stringify (JArr [JStr (js "bfx"); m])).
    set (w1 := with_sockets _ _).
    assert (Hs1 : sockets w1 !! ws = Some (transmit f s)).
    { subst w1. run_m. now rewrite list_lookup_alter_eq, Hs. }
    specialize (IH (transmit f s) w1 Hp Hr Hws Hs1 Hrs).
    destruct (run _ w1) as [r w']. destruct IH as (Hr' & Hthis & Hpr & Hso).
    split; [exact Hr'|]. split; [exact Hthis|]. split; [exact Hpr|].
    rewrite Hso. subst w1. run_m. rewrite (alter_known _ _ _ _ Hs).
    rewrite list_insert_insert_eq. cbn [transmit ws_sent ws_listeners map].
    now rewrite <- app_assoc.
Qed.

Lemma proxy_emit_debug_only p o e fmt w :
  proxies w !! p = Some o ->
  filter (fun l => l.1.1 = event_name e) (px_listeners o)
  = [(event_name e, ProxyDebug fmt, false)] ->
  proxy_emit p e w = (Ret tt, log (ADebug fmt) w).
Proof.
  intros Hp Hf. unfold proxy_emit. rewrite bind_gets, Hp, Hf.
  cbn [fire_proxy snd fst run_proxy_listener]. rewrite bind_ret.
  unfold debug. now rewrite bind_modify.
Qed.

(** X7.  The authentication listener is registered with [once]: a second
    ['open'] event of a session only logs; no [auth()] call, no other
    change. *)
Theorem second_open_event_does_not_authenticate p clientID params w :
  proxies w !! p = Some (opened_session clientID params) ->
  let '(r1, w1) := proxy_emit p PxOpen w in
  let '(r2, w2) := proxy_emit p PxOpen w1 in
  r1 = Ret tt /\ r2 = Ret tt /\
  this w2 = this w1 /\ sockets w2 = sockets w1 /\ proxies w2 = proxies w1 /\
  trace w2 = trace w1 ++ [ADebug "bfx proxy connection opened"].
Proof.
  intros Hp. rewrite (proxy_emit_open_eq _ _ _ _ Hp). cbv zeta.
  erewrite proxy_emit_debug_only;
    [|cbn [proxies]; apply list_lookup_insert_eq; eapply lookup_lt_Some, Hp
     |reflexivity].
  repeat split.
Qed.

(** X8.  The ['auth'] and ['close'] events of a session only log a line,
    before and after the first ['open'] event: in particular an upstream
    close does not unregister the session or touch the client. *)
Theorem upstream_auth_and_close_only_log p o clientID params e w :
  proxies w !! p = Some o ->
  px_listeners o = px_listeners (opened_session clientID params) \/
  px_listeners o = remove_first ("open", ProxyAuthOnOpen, true)
                     (px_listeners (opened_session clientID params)) ->
  e = PxAuth \/ e = PxClose ->
  proxy_emit p e w
  = (Ret tt,
     log (ADebug (match e with
                  | PxAuth => "bfx proxy connection authenticated"
                  | _ => "bfx proxy connection closed"
                  end)) w).
Proof.
  intros Hp Hl He. apply (proxy_emit_debug_only _ _ _ _ _ Hp).
  destruct Hl as [-> | ->], He as [-> | ->]; reflexivity.
Qed.

(** ** Disconnects *)

(** X9.  A second [onWSDisconnected] for the same id returns normally
    and changes nothing: it logs, deletes the absent registry entry, and
    finds no session to close. *)
Theorem disconnect_twice clientID w :
  let '(r1, w1) := onWSDisconnected clientID w in
  let '(r2, w2) := onWSDisconnected clientID w1 in
  r2 = Ret tt /\
  this w2 = this w1 /\ sockets w2 = sockets w1 /\ proxies w2 = proxies w1 /\
  trace w2 = trace w1 ++ [ADebug "ws client %s disconnected";
                          ADeleteClient clientID].
Proof.
  rewrite onWSDisconnected_eq.
  set (w1 := match bfxProxies (this w) !! clientID with Some _ => _ | None => _ end).
  assert (Hc : wssClients (this w1) !! clientID = None).
  { subst w1. destruct (bfxProxies (this w) !! clientID); run_m;
      apply lookup_delete_eq. }
  assert (Hb : bfxProxies (this w1) !! clientID = None).
  { subst w1. destruct (bfxProxies (this w) !! clientID) eqn:Hx; run_m;
      [apply lookup_delete_eq|exact Hx]. }
  rewrite onWSDisconnected_eq, Hb. run_m.
  split; [reflexivity|]. split.
  - destruct (this w1) as [cl px en pa re] eqn:Hd. cbn in Hc |- *.
    unfold with_wssClients. cbn. now rewrite (delete_id _ _ Hc).
  - repeat split. now rewrite <- app_assoc.
Qed.

(** X10.  [onWSDisconnected] for one client leaves every other client's
    registry entries, every session other than the client's own, all
    sockets, the listening server and the proxy configuration as they
    were. *)
Theorem disconnect_leaves_other_clients clientID w :
  let '(r, w') := onWSDisconnected clientID w in
  (forall id, id <> clientID ->
     wssClients (this w') !! id = wssClients (this w) !! id /\
     bfxProxies (this w') !! id = bfxProxies (this w) !! id) /\
  (forall p, bfxProxies (this w) !! clientID <> Some p ->
     proxies w' !! p = proxies w !! p) /\
  sockets w' = sockets w /\ wss w' = wss w /\
  bfxProxyEnabled (this w') = bfxProxyEnabled (this w) /\
  bfxProxyParams (this w') = bfxProxyParams (this w).
Proof.
  rewrite onWSDisconnected_eq.
  destruct (bfxProxies (this w) !! clientID) as [p0|] eqn:Hp0; run_m.
  - split.
    { intros id Hne. now rewrite !lookup_delete_ne by congruence. }
    split; [|repeat split].
    intros p Hp. apply list_lookup_alter_ne. congruence.
  - split; [|repeat split].
    intros id Hne. now rewrite !lookup_delete_ne by congruence.
Qed.

Lemma fire_ws_nil e w : fire_ws e [] w = (Ret tt, w).
Proof. reflexivity. Qed.

Lemma close_listeners id :
  filter (fun l : string * ws_listener => l.1 = "close")
         [("message", OnWSMessage id); ("close", OnWSDisconnected id)]
  = [("close", OnWSDisconnected id)].
Proof. reflexivity. Qed.


(** X11.  A connection followed by the close of the accepted socket
    leaves the server object as it was before (both registries, flag and
    configuration), when the id [nonce()] gives is not in use: what
    remains is the closed socket and, with proxying enabled, a session on
    which [open()] and then [close()] were called. *)
Theorem connect_then_disconnect_restores_registries w :
  wss_listening w = true ->
  wssClients (this w) !! nonce (nonce_calls w) = None ->
  bfxProxies (this w) !! nonce (nonce_calls w) = None ->
  let clientID := nonce (nonce_calls w) in
  let '(r1, w1) := step Connection w in
  let '(r2, w2) := step (FromClient (length (sockets w)) WsClose) w1 in
  r1 = Ret tt /\ r2 = Ret tt /\
  this w2 = this w /\
  sockets w2 = sockets w ++
               [{| readyState := 3;
                   ws_sent := [JSON_stringify (JArr [JStr (js "connected")])];
                   ws_listeners := [("message", OnWSMessage clientID);
                                    ("close", OnWSDisconnected clientID)] |}] /\
  proxies w2 = (if truthy_flag (bfxProxyEnabled (this w))
                then proxies w ++
                     [{| px_params := bfxProxyParams (this w);
                         px_listeners :=
                           px_listeners (opened_session clientID
                                           (bfxProxyParams (this w)));
                         px_calls := [POpen; PClose] |}]
                else proxies w).
Proof.
  intros Hl Hc Hb. cbv zeta. rewrite (step_connection_eq _ Hl). cbv zeta.
  rewrite step_ws_close_eq. cbn [sockets].
  rewrite alter_snoc, lookup_snoc. cbn [ws_listeners ws_sent].
  rewrite close_listeners, fire_ws_disconnected, fire_ws_nil, onWSDisconnected_eq.
  cbn [snd].
  destruct (truthy_flag (bfxProxyEnabled (this w))) eqn:Hon; run_m.
  - rewrite lookup_insert_eq. run_m. rewrite alter_snoc.
    split; [reflexivity|]. split; [reflexivity|]. split; [|split; [reflexivity|now rewrite alter_snoc]].
    destruct (this w) as [cl px en pa re]. cbn in Hc, Hb |- *.
    unfold with_bfxProxies, with_wssClients. cbn.
    now rewrite !delete_insert_id.
  - rewrite Hb. run_m. rewrite alter_snoc.
    split; [reflexivity|]. split; [reflexivity|]. split; [|now split].
    destruct (this w) as [cl px en pa re]. cbn in Hc, Hb |- *.
    unfold with_wssClients. cbn. now rewrite !delete_insert_id.
Qed.

(** X12.  The order of effects of accepting a connection: log, [nonce()],
    registration of the socket, the ['message'] and the ['close']
    listener, then with proxying enabled the whole of [openBFXProxy]
    (five listeners, [open()]) and the registration of the session, and
    the greeting last. *)
Theorem accept_order w :
  wss_listening w = true ->
  let clientID := nonce (nonce_calls w) in
  let ws := length (sockets w) in
  let proxy := length (proxies w) in
  let frame := JSON_stringify (JArr [JStr (js "connected")]) in
  trace (step Connection w).2
  = trace w ++
    [ADebug "ws client connected"; ANonce clientID; ASetClient clientID ws;
     AWsOn ws "message" (OnWSMessage clientID);
     AWsOn ws "close" (OnWSDisconnected clientID)] ++
    (if truthy_flag (bfxProxyEnabled (this w))
     then [ANewProxy proxy;
           AProxyOn proxy "message" (ProxyRelay clientID) false;
           AProxyOn proxy "open" (ProxyDebug "bfx proxy connection opened") false;
           AProxyOn proxy "auth"
             (ProxyDebug "bfx proxy connection authenticated") false;
           AProxyOn proxy "close" (ProxyDebug "bfx proxy connection closed") false;
           AProxyOn proxy "open" ProxyAuthOnOpen true;
           AProxyCall proxy POpen;
           ASetProxy clientID proxy]
     else []) ++
    [AWsSend ws frame].
Proof. intros Hl. now rewrite (step_connection_eq _ Hl). Qed.

(** ** Runs of quiet events *)

















End Behaviour.

(** ** Frames of the relay are told apart *)

Lemma stringify_inj v1 v2 :
  JSON.representable v1 -> JSON.representable v2 ->
  JSON.stringify v1 = JSON.stringify v2 -> v1 = v2.
Proof.
  intros H1 H2 He.
  pose proof (JSONFacts.parse_stringify v1 H1) as P1.
  pose proof (JSONFacts.parse_stringify v2 H2) as P2.
  rewrite He in P1. congruence.
Qed.

(** X15.  The text the relay sends for an upstream message determines the
    message: two representable messages with the same [["bfx", msg]]
    text are equal. *)
Theorem relayed_text_determines_message m1 m2 :
  JSON.representable m1 -> JSON.representable m2 ->
  JSON.stringify (JArr [JStr (js "bfx"); m1])
  = JSON.stringify (JArr [JStr (js "bfx"); m2]) ->
  m1 = m2.
Proof.
  intros H1 H2 He.
  apply stringify_inj in He; [congruence| |]; cbn; tauto.
Qed.

(** ** Instances of the theorems of this part *)


Lemma registered_command_runs_its_handler_witness :
  (("get.candles"%string, getCandles) ∈ COMMANDS) /\
  @onWSMessage reference_externals 1000
    (Some (JSON.stringify (JArr [JStr (js "get.candles"); JNum 1])))
    (constructor example_args)
  = (Ret VUndefined,
     log (AInvoke (Handler getCandles)) (constructor example_args)).
Proof.
  assert (Hin : ("get.candles"%string, getCandles) ∈ COMMANDS)
    by (do 3 apply list_elem_of_further; apply list_elem_of_here).
  split; [exact Hin|].
  apply (@registered_command_runs_its_handler reference_externals 1000
           (Some (JSON.stringify (JArr [JStr (js "get.candles"); JNum 1])))
           "get.candles" getCandles [JNum 1] (constructor example_args) Hin).
  vm_compute. reflexivity.
Defined.

Lemma dispatch_decided_by_key_witness :
  (js "nope" ∉ js <$> function_names) /\
  @onWSMessage reference_externals 1000
    (Some (JSON.stringify (JArr [JStr (js "nope")])))
    (constructor example_args)
  = (Ret VUndefined,
     log (ADebug "received unknown command: %s") (constructor example_args)).
Proof.
  assert (Hn : js "nope" ∉ js <$> function_names).
  { intros H. vm_compute in H.
    repeat (apply elem_of_cons in H as [H|H]; [discriminate|]).
    now apply elem_of_nil in H. }
  split; [exact Hn|].
  assert (Hp : @JSON_parse reference_externals
                 (default [] (Some (JSON.stringify (JArr [JStr (js "nope")]))))
               = Some (JArr [JStr (js "nope")]))
    by (vm_compute; reflexivity).
  destruct (@dispatch_decided_by_key reference_externals 1000 _
              [JStr (js "nope")] (js "nope") (constructor example_args)
              Hp eq_refl) as [_ H].
  exact (H Hn).
Defined.

Lemma non_string_first_element_is_unknown_witness :
  @onWSMessage reference_externals 1000
    (Some (JSON.stringify (JArr [JNum 7; JStr (js "bfx")])))
    (constructor example_args)
  = (Ret VUndefined,
     log (ADebug "received unknown command: %s") (constructor example_args)).
Proof.
  apply (@non_string_first_element_is_unknown reference_externals 1000 _
           [JNum 7; JStr (js "bfx")]).
  - vm_compute. reflexivity.
  - exact I.
Defined.

Lemma object_first_element_witness :
  @onWSMessage reference_externals 1000
    (Some (JSON.stringify (JArr [JObj [(js "toString", JNum 1)]])))
    (constructor example_args)
  = (Throw (TypeError "Cannot convert object to primitive value"),
     constructor example_args).
Proof.
  rewrite (@object_first_element reference_externals 1000 _
             [(js "toString", JNum 1)] [] (constructor example_args));
    [reflexivity|].
  vm_compute. reflexivity.
Defined.

Lemma upstream_message_to_closed_socket_is_dropped_witness :
  let w := with_sockets (alter closed 0%nat)
             (@step reference_externals Connection (constructor example_args)).2 in
  wssClients (this w) !! 1000 = Some 0%nat /\
  (readyState <$> sockets w !! 0%nat) = Some 3 /\
  @proxy_emit reference_externals 0%nat (PxMessage (JArr [JNum 7])) w
  = (Ret tt, w).
Proof.
  cbv zeta.
  set (w := with_sockets (alter closed 0%nat)
              (@step reference_externals Connection (constructor example_args)).2).
  assert (Hw : wssClients (this w) !! 1000 = Some 0%nat)
    by (vm_compute; reflexivity).
  split; [exact Hw|]. split; [vm_compute; reflexivity|].
  apply (@upstream_message_to_closed_socket_is_dropped reference_externals
           0%nat
           (opened_session 1000 (bfxProxyParams (this (constructor example_args))))
           1000 0%nat
           (closed {| readyState := 1;
                      ws_sent := [JSON.stringify (JArr [JStr (js "connected")])];
                      ws_listeners := [("message", OnWSMessage 1000);
                                       ("close", OnWSDisconnected 1000)] |})
           (JArr [JNum 7]) w).
  - vm_compute. reflexivity.
  - reflexivity.
  - exact Hw.
  - vm_compute. reflexivity.
  - discriminate.
Defined.

Lemma upstream_messages_are_relayed_in_order_witness :
  let w := (@step reference_externals Connection (constructor example_args)).2 in
  let '(r, w') := @run reference_externals
                       (map (fun m => FromUpstream 0%nat (PxMessage m))
                            [JNum 1; JNum 2]) w in
  r = Ret tt /\
  (ws_sent <$> sockets w' !! 0%nat)
  = Some [JSON.stringify (JArr [JStr (js "connected")]);
          JSON.stringify (JArr [JStr (js "bfx"); JNum 1]);
          JSON.stringify (JArr [JStr (js "bfx"); JNum 2])].
Proof.
  cbv zeta.
  set (w := (@step reference_externals Connection (constructor example_args)).2).
  pose proof (@upstream_messages_are_relayed_in_order reference_externals
                0%nat
                (opened_session 1000
                   (bfxProxyParams (this (constructor example_args))))
                1000 0%nat [JNum 1; JNum 2]
                {| readyState := 1;
                   ws_sent := [JSON.stringify (JArr [JStr (js "connected")])];
                   ws_listeners := [("message", OnWSMessage 1000);
                                    ("close", OnWSDisconnected 1000)] |}
                w) as H.
  destruct (@run reference_externals _ w) as [r w'].
  destruct H as (Hr & _ & _ & Hs);
    [vm_compute; reflexivity|reflexivity|vm_compute; reflexivity
    |vm_compute; reflexivity|reflexivity|].
  split; [exact Hr|]. rewrite Hs. vm_compute. reflexivity.
Defined.

Lemma second_open_event_does_not_authenticate_witness :
  let w := (@step reference_externals Connection (constructor example_args)).2 in
  let '(r1, w1) := @proxy_emit reference_externals 0%nat PxOpen w in
  let '(r2, w2) := @proxy_emit reference_externals 0%nat PxOpen w1 in
  (px_calls <$> proxies w1 !! 0%nat) = Some [POpen; PAuth] /\
  proxies w2 = proxies w1.
Proof.
  cbv zeta.
  set (w := (@step reference_externals Connection (constructor example_args)).2).
  pose proof (@second_open_event_does_not_authenticate reference_externals
                0%nat 1000 (bfxProxyParams (this (constructor example_args))) w)
    as H.
  destruct (@proxy_emit reference_externals 0%nat PxOpen w) as [r1 w1] eqn:E1.
  destruct (@proxy_emit reference_externals 0%nat PxOpen w1) as [r2 w2].
  destruct H as (_ & _ & _ & _ & Hp & _); [vm_compute; reflexivity|].
  split; [|exact Hp].
  replace w1 with (@proxy_emit reference_externals 0%nat PxOpen w).2
    by now rewrite E1.
  vm_compute. reflexivity.
Defined.

Lemma upstream_auth_and_close_only_log_witness :
  let w := (@step reference_externals Connection (constructor example_args)).2 in
  @proxy_emit reference_externals 0%nat PxClose w
  = (Ret tt, log (ADebug "bfx proxy connection closed") w).
Proof.
  cbv zeta.
  apply (@upstream_auth_and_close_only_log reference_externals 0%nat
           (opened_session 1000
              (bfxProxyParams (this (constructor example_args))))
           1000 (bfxProxyParams (this (constructor example_args))) PxClose).
  - vm_compute. reflexivity.
  - left. reflexivity.
  - right. reflexivity.
Defined.

Lemma disconnect_leaves_other_clients_witness :
  let w := (@run reference_externals [Connection; Connection]
                 (constructor example_args)).2 in
  let w' := (onWSDisconnected 1000 w).2 in
  wssClients (this w') !! 2000 = Some 1%nat /\
  bfxProxies (this w') !! 2000 = Some 1%nat.
Proof.
  cbv zeta.
  set (w := (@run reference_externals [Connection; Connection]
                  (constructor example_args)).2).
  pose proof (disconnect_leaves_other_clients 1000 w) as H.
  destruct (onWSDisconnected 1000 w) as [r w'].
  destruct H as (H & _). cbn [snd].
  destruct (H 2000 ltac:(discriminate)) as [-> ->].
  split; vm_compute; reflexivity.
Defined.

Lemma connect_then_disconnect_restores_registries_witness :
  let w := constructor example_args in
  let '(r1, w1) := @step reference_externals Connection w in
  let '(r2, w2) := @step reference_externals (FromClient 0%nat WsClose) w1 in
  r1 = Ret tt /\ r2 = Ret tt /\ this w2 = this w /\
  (px_calls <$> proxies w2 !! 0%nat) = Some [POpen; PClose].
Proof.
  cbv zeta.
  pose proof (@connect_then_disconnect_restores_registries reference_externals
                (constructor example_args) eq_refl eq_refl eq_refl) as H.
  cbv zeta in H.
  destruct (@step reference_externals Connection (constructor example_args))
    as [r1 w1].
  change (length (sockets (constructor example_args))) with 0%nat in H.
  destruct (@step reference_externals (FromClient 0%nat WsClose) w1) as [r2 w2].
  destruct H as (H1 & H2 & H3 & _ & H5).
  split; [exact H1|]. split; [exact H2|]. split; [exact H3|].
  now rewrite H5.
Defined.

Lemma accept_order_witness :
  trace (@step reference_externals Connection
               (constructor example_args_no_proxy)).2
  = [ADebug "websocket API open on port %d";
     ADebug "ws client connected"; ANonce 1000; ASetClient 1000 0%nat;
     AWsOn 0%nat "message" (OnWSMessage 1000);
     AWsOn 0%nat "close" (OnWSDisconnected 1000);
     AWsSend 0%nat (JSON.stringify (JArr [JStr (js "connected")]))].
Proof.
  exact (@accept_order reference_externals (constructor example_args_no_proxy)
           eq_refl).
Defined.



Lemma relayed_text_determines_message_witness :
  JSON.representable (JArr [JNum 7]) /\
  forall m2, JSON.representable m2 ->
    JSON.stringify (JArr [JStr (js "bfx"); JArr [JNum 7]])
    = JSON.stringify (JArr [JStr (js "bfx"); m2]) ->
    JArr [JNum 7] = m2.
Proof.
  assert (H : JSON.representable (JArr [JNum 7])).
  { cbn. split; [|exact I]. vm_compute. discriminate. }
  split; [exact H|]. intros m2 H2.
  exact (relayed_text_determines_message (JArr [JNum 7]) m2 H H2).
Defined.
